(** * Content-based movie recommendation: signature builder and recommender

    A shallow embedding of [src/recomendation.py].  The script cleans the
    [cast] and [crew] columns with [get_top_actors] and [get_director],
    concatenates them with the overview into [combined_text], vectorises the
    result, computes a cosine-similarity matrix and answers queries with
    [recommend_movie].

    Python values produced by [ast.literal_eval] are modelled by the
    inductive type [pyval]; exceptions by the type [outcome]; the two module
    globals read by [recommend_movie] (the [title] column of [movies] and
    [similarity_matrix]) by the record [module_state].  Similarity scores are
    finite float64 numbers; every such number is a rational and Python's [<]
    on them agrees with the order of [Q], so a score is a [Q] where only the
    order of the scores matters.  The values of the matrix themselves are
    computed by the library function [cosine_similarity]; the module [Cosine]
    models it, in float64 arithmetic ([F64]) and in exact arithmetic
    ([Exact]). *)

From Stdlib Require Import PrimFloat.
From Stdlib Require Reals Lra.
From Stdlib Require Import List String Ascii ZArith QArith Lia Lqa Bool.
From Stdlib Require Import Sorting.Sorted Sorting.Permutation.
Import ListNotations.

Local Close Scope Q_scope.
Local Open Scope string_scope.
Local Open Scope list_scope.

(** ** Python values and exceptions *)

Module Py.

(** Values that [ast.literal_eval] can build.  A dictionary is kept as the
    list of its items in insertion order, with no repeated key. *)
#[warnings="-register-all"]
Inductive pyval : Type :=
| PyNone
| PyEllipsis
| PyBool (b : bool)
| PyInt (z : Z)
| PyFloat (q : Q)
| PyStr (s : string)
| PyBytes (b : list Z)
| PyTuple (l : list pyval)
| PyList (l : list pyval)
| PySet (l : list pyval)
| PyDict (d : list (pyval * pyval)).

Inductive exn : Type :=
| SyntaxError
| ValueError
| TypeError
| KeyError
| IndexError.

(** The result of running a piece of Python: a value, or a raised exception. *)
Inductive outcome (A : Type) : Type :=
| Returned (a : A)
| Raised (e : exn).

Arguments Returned {A} a.
Arguments Raised {A} e.

Definition bind {A B : Type} (m : outcome A) (k : A -> outcome B) : outcome B :=
  match m with
  | Returned a => k a
  | Raised e => Raised e
  end.

Notation "x <- m ;; k" := (bind m (fun x => k))
  (at level 61, m at next level, right associativity).

(** [d[key]] for a [str] key on the items of a dictionary: only a [str] key
    with the same characters compares equal to it. *)
Fixpoint dict_get (d : list (pyval * pyval)) (key : string) : option pyval :=
  match d with
  | [] => None
  | (PyStr k, v) :: rest => if String.eqb k key then Some v else dict_get rest key
  | _ :: rest => dict_get rest key
  end.

(** [v[key]] with a [str] key.  A dictionary looks the key up; sequences accept
    integer indices only; the remaining values are not subscriptable. *)
Definition getitem (v : pyval) (key : string) : outcome pyval :=
  match v with
  | PyDict d =>
      match dict_get d key with
      | Some x => Returned x
      | None => Raised KeyError
      end
  | _ => Raised TypeError
  end.

(** The one-character strings of a string, as iteration yields them. *)
Fixpoint chars (s : string) : list pyval :=
  match s with
  | EmptyString => []
  | String c rest => PyStr (String c EmptyString) :: chars rest
  end.

(** [v[:3]]: sequences are cut to their first three elements; a dictionary
    rejects the slice as a key and the other values are not subscriptable. *)
Definition slice3 (v : pyval) : outcome pyval :=
  match v with
  | PyList l => Returned (PyList (firstn 3 l))
  | PyTuple l => Returned (PyTuple (firstn 3 l))
  | PyStr s => Returned (PyStr (substring 0 3 s))
  | PyBytes b => Returned (PyBytes (firstn 3 b))
  | _ => Raised TypeError
  end.

(** The elements a [for] loop visits. *)
Definition iter (v : pyval) : outcome (list pyval) :=
  match v with
  | PyList l => Returned l
  | PyTuple l => Returned l
  | PySet l => Returned l
  | PyStr s => Returned (chars s)
  | PyBytes b => Returned (map PyInt b)
  | PyDict d => Returned (map fst d)
  | _ => Raised TypeError
  end.

(** [v == s] for a [str] literal [s]; comparing never raises. *)
Definition eq_str (v : pyval) (s : string) : bool :=
  match v with
  | PyStr t => String.eqb t s
  | _ => false
  end.

(** [sep.join(items)]: every item has to be a [str]. *)
Fixpoint join (sep : string) (items : list pyval) : outcome string :=
  match items with
  | [] => Returned ""
  | [PyStr s] => Returned s
  | PyStr s :: rest => t <- join sep rest ;; Returned (s ++ sep ++ t)%string
  | _ => Raised TypeError
  end.

(** Python's slice [l[lo:hi]] with step one: a negative bound counts from the
    end, and both bounds are clamped to the list. *)
Definition clamp (len i : Z) : Z :=
  if (i <? 0)%Z then Z.max (i + len) 0 else Z.min i len.

Definition slice {A : Type} (l : list A) (lo hi : Z) : list A :=
  let len := Z.of_nat (List.length l) in
  let lo' := clamp len lo in
  let hi' := clamp len hi in
  firstn (Z.to_nat (hi' - lo')) (skipn (Z.to_nat lo') l).

(** [list(enumerate(l))]. *)
Fixpoint enumerate_from {A : Type} (start : nat) (l : list A) : list (nat * A) :=
  match l with
  | [] => []
  | x :: rest => (start, x) :: enumerate_from (S start) rest
  end.

Definition enumerate {A : Type} (l : list A) : list (nat * A) :=
  enumerate_from 0 l.

End Py.

Import Py.

(** ** Signature builder (sections 5 to 7 of the script) *)

Section SignatureBuilder.

(** [ast.literal_eval] belongs to the Python standard library: it either
    returns the value a literal denotes or raises.  The script only depends
    on that interface, so the parser is a parameter of the embedding. *)
Variable literal_eval : string -> outcome pyval.

(** The loop [for person in ...: names.append(person["name"])], started with
    the list [names].  The list is mutated in place, so what was appended
    before an exception stays in it: the result pairs the final list with the
    way the loop ended. *)
Fixpoint append_names (people : list pyval) (names : list pyval)
  : list pyval * outcome unit :=
  match people with
  | [] => (names, Returned tt)
  | person :: rest =>
      match getitem person "name" with
      | Returned name => append_names rest (names ++ [name])
      | Raised e => (names, Raised e)
      end
  end.

(** The [try] block of [get_top_actors], with the binding of [names]. *)
Definition top_actors_try (cast : string) (names : list pyval)
  : list pyval * outcome unit :=
  match literal_eval cast with
  | Raised e => (names, Raised e)
  | Returned parsed =>
      match (top <- slice3 parsed ;; iter top) with
      | Raised e => (names, Raised e)
      | Returned people => append_names people names
      end
  end.

(** [get_top_actors]: the bare [except: pass] discards whatever the block
    raised, and the join runs outside the [try]. *)
Definition get_top_actors (cast : string) : outcome string :=
  let names := fst (top_actors_try cast []) in
  join " " names.

(** The loop of [get_director]: [Returned (Some v)] when the [return]
    statement ran with [v], [Returned None] when the loop ran to its end. *)
Fixpoint find_director (people : list pyval) : outcome (option pyval) :=
  match people with
  | [] => Returned None
  | person :: rest =>
      job <- getitem person "job" ;;
      if eq_str job "Director"
      then (name <- getitem person "name" ;; Returned (Some name))
      else find_director rest
  end.

Definition get_director (crew : string) : pyval :=
  match (parsed <- literal_eval crew ;;
         people <- iter parsed ;;
         find_director people) with
  | Returned (Some name) => name
  | Returned None => PyStr ""
  | Raised _ => PyStr ""
  end.

(** One element of the pandas addition [left + right] of two object columns
    where the left element is a [str].  Where the right element is missing
    ([None]) the result is missing (NaN, [None] here) and nothing is raised;
    elsewhere the elements are added as Python adds them, which raises
    [TypeError] unless the right element is a [str] too. *)
Definition series_add (left : string) (right : pyval) : outcome (option string) :=
  match right with
  | PyStr s => Returned (Some (left ++ s)%string)
  | PyNone => Returned None
  | _ => Raised TypeError
  end.

(** One row of [movies["overview"] + " " + movies["cast"] + " " +
    movies["crew"]], on the cleaned columns: the overview and the cleaned cast
    are strings, the cleaned crew is whatever [get_director] returned.  The
    result is the text of the row, or [None] for a NaN entry. *)
Definition combined_text (overview cast : string) (crew : pyval)
  : outcome (option string) :=
  series_add (((overview ++ " ") ++ cast) ++ " ")%string crew.

(** Cleaning followed by concatenation, for one row of the merged table. *)
Definition signature (overview cast crew : string) : outcome (option string) :=
  actors <- get_top_actors cast ;;
  combined_text overview actors (get_director crew).

End SignatureBuilder.

(** ** Recommender (section 10 of the script) *)

(** The module globals [recommend_movie] reads: the [title] column of
    [movies], in row order, and [similarity_matrix]. *)
Record module_state : Type := {
  movie_titles : list string;
  similarity_matrix : list (list Q)
}.

(** [cosine_similarity] of a matrix with one row per movie is square, with
    one row and one column per movie. *)
Definition is_square (st : module_state) : bool :=
  let n := List.length (movie_titles st) in
  Nat.eqb (List.length (similarity_matrix st)) n
  && forallb (fun row => Nat.eqb (List.length row) n) (similarity_matrix st).

(** [l[i]] for a non-negative index. *)
Definition index_at {A : Type} (l : list A) (i : nat) : outcome A :=
  match nth_error l i with
  | Some x => Returned x
  | None => Raised IndexError
  end.

(** [movie_name in movies["title"].values]. *)
Definition title_in (movie_name : string) (titles : list string) : bool :=
  existsb (String.eqb movie_name) titles.

(** [movies[movies["title"] == movie_name].index]: the labels of the rows the
    boolean mask keeps, in row order.  After the merge the labels are the row
    positions. *)
Definition matching_index (movie_name : string) (titles : list string) : list nat :=
  map fst (filter (fun row => String.eqb (snd row) movie_name) (enumerate titles)).

(** [a < b] on scores. *)
Definition score_lt (a b : Q) : bool := negb (Qle_bool b a).

(** [sorted(l, key=key, reverse=True)].  Python's sort compares keys with [<]
    only and is stable, also under [reverse]: elements come out by descending
    key, and elements with equal keys keep their order in [l]. *)
Fixpoint insert_desc {A : Type} (key : A -> Q) (x : A) (l : list A) : list A :=
  match l with
  | [] => [x]
  | y :: rest =>
      if score_lt (key x) (key y)
      then y :: insert_desc key x rest
      else x :: y :: rest
  end.

Fixpoint sorted_reverse {A : Type} (key : A -> Q) (l : list A) : list A :=
  match l with
  | [] => []
  | x :: rest => insert_desc key x (sorted_reverse key rest)
  end.

(** The two assignments to [similarity_scores]. *)
Definition ranking (row : list Q) : list (nat * Q) :=
  sorted_reverse snd (enumerate row).

(** The loop [for i in ...: recommendations.append(movies.iloc[i[0]]["title"])]. *)
Fixpoint collect_titles (titles : list string) (picks : list (nat * Q))
  : outcome (list string) :=
  match picks with
  | [] => Returned []
  | i :: rest =>
      title <- index_at titles (fst i) ;;
      more <- collect_titles titles rest ;;
      Returned (title :: more)
  end.

(** [recommend_movie] from the line that reads the similarity row on. *)
Definition recommend_at (st : module_state) (index : nat) (top_n : Z)
  : outcome (list string) :=
  row <- index_at (similarity_matrix st) index ;;
  let similarity_scores := ranking row in
  collect_titles (movie_titles st) (slice similarity_scores 1 (top_n + 1)).

Definition not_found : list string := ["Movie not found in database"].

Definition recommend_movie (st : module_state) (movie_name : string) (top_n : Z)
  : outcome (list string) :=
  if negb (title_in movie_name (movie_titles st))
  then Returned not_found
  else
    index <- index_at (matching_index movie_name (movie_titles st)) 0 ;;
    recommend_at st index top_n.

(** ** Order of the ranking *)

(** [ranked_before a b]: entry [a] has to come before entry [b], because its
    score is larger or, the scores being equal, its catalog index is smaller. *)
Definition ranked_before (a b : nat * Q) : Prop :=
  (snd b < snd a)%Q \/ ((snd a == snd b)%Q /\ fst a < fst b).

(** ** Reference definitions and sample inputs *)

(** What section 4.1 of the specification asks of director extraction, on a
    crew given as (job, name) records: the name of the first record whose job
    is "Director", the empty string when there is none. *)
Definition first_director (records : list (string * string)) : string :=
  match find (fun r => String.eqb (fst r) "Director") records with
  | Some r => snd r
  | None => ""
  end.

(** A parsed crew entry carrying the given job and name, both of them [str]. *)
Definition crew_record (v : pyval) (r : string * string) : Prop :=
  getitem v "job" = Returned (PyStr (fst r)) /\
  getitem v "name" = Returned (PyStr (snd r)).

(** A sample of [ast.literal_eval]: two encodings it parses, everything else
    (the empty string of an absent field included) is a syntax error. *)
Definition sample_cast : string :=
  "[{'name': 'Sam Worthington'}, {'id': 8691}, {'name': 'Sigourney Weaver'}]".

Definition sample_crew : string :=
  "[{'job': 'Editor', 'name': 'Stephen Rivkin'}, {'job': 'Director', 'name': 'James Cameron'}]".

Definition sample_literal_eval (s : string) : outcome pyval :=
  if String.eqb s sample_cast then
    Returned (PyList [PyDict [(PyStr "name", PyStr "Sam Worthington")];
                      PyDict [(PyStr "id", PyInt 8691)];
                      PyDict [(PyStr "name", PyStr "Sigourney Weaver")]])
  else if String.eqb s sample_crew then
    Returned (PyList [PyDict [(PyStr "job", PyStr "Editor");
                              (PyStr "name", PyStr "Stephen Rivkin")];
                      PyDict [(PyStr "job", PyStr "Director");
                              (PyStr "name", PyStr "James Cameron")]])
  else Raised SyntaxError.



(** Sample module states used to evaluate the recommender. *)
Definition three_movies : module_state := {|
  movie_titles := ["Avatar"; "Alien"; "Titanic"];
  similarity_matrix := [[1; 1#2; 1#4]; [1#2; 1; 1#8]; [1#4; 1#8; 1]]%Q
|}.

Definition twin_signatures : module_state := {|
  movie_titles := ["Alien"; "Aliens"];
  similarity_matrix := [[1; 1]; [1; 1]]%Q
|}.

Definition repeated_title : module_state := {|
  movie_titles := ["Hamlet"; "Macbeth"; "Hamlet"];
  similarity_matrix := [[1; 1#4; 1#2]; [1#4; 1; 1#8]; [1#2; 1#8; 1]]%Q
|}.

Definition other_title_repeated : module_state := {|
  movie_titles := ["Avatar"; "Batman"; "Batman"];
  similarity_matrix := [[1; 1#2; 1#2]; [1#2; 1; 1]; [1#2; 1; 1]]%Q
|}.

Definition sentinel_title : module_state := {|
  movie_titles := ["Movie not found in database"; "Up"];
  similarity_matrix := [[1; 1#3]; [1#3; 1]]%Q
|}.

(** ** Similarity index (section 9 of the script) *)

Module Cosine.

Section Arithmetic.

(** The numbers and the operations the vectors are made of. *)
Variable F : Type.
Variables (zero one : F) (add mul div : F -> F -> F) (sqrt : F -> F).
Variable is_zero : F -> bool.

(** Modelled from the spec: [cosine_similarity] belongs to scikit-learn and is
    not part of the repository.  Section 4.3 has the similarity of two vectors
    be their normalized dot product, computed as a single dot product of
    unit-normalized vectors; the products are summed from the first
    coordinate on.  The two vectors have the same length. *)
Definition dot (u v : list F) : F :=
  fold_left (fun acc p => add acc (mul (fst p) (snd p))) (combine u v) zero.

(** Modelled from the spec: the L2 normalization of sections 4.2 and 4.3,
    every coordinate divided by the Euclidean norm.  A vector of norm zero is
    left as it is, which is how the similarity of an all-zero vector comes out
    as 0 and not as NaN. *)
Definition normalize (v : list F) : list F :=
  let norm := sqrt (dot v v) in
  let scale := if is_zero norm then one else norm in
  map (fun x => div x scale) v.

(** Modelled from the spec: the item by item table of section 4.3, whose
    entry (i, j) is the dot product of the normalized vectors i and j. *)
Definition cosine_similarity (vectors : list (list F)) : list (list F) :=
  let normalized := map normalize vectors in
  map (fun u => map (fun v => dot u v) normalized) normalized.

End Arithmetic.

(** [matrix[i][j]], when both indices are in range. *)
Definition entry {F : Type} (matrix : list (list F)) (i j : nat) : option F :=
  match nth_error matrix i with
  | Some row => nth_error row j
  | None => None
  end.

End Cosine.

(** The similarity index in the arithmetic of the script: float64, with the
    operations of IEEE 754. *)
Module F64.

Definition is_zero (x : float) : bool := (x =? 0)%float.

Definition dot : list float -> list float -> float :=
  Cosine.dot float 0%float PrimFloat.add PrimFloat.mul.

Definition normalize : list float -> list float :=
  Cosine.normalize float 0%float 1%float PrimFloat.add PrimFloat.mul
    PrimFloat.div PrimFloat.sqrt is_zero.

Definition cosine_similarity : list (list float) -> list (list float) :=
  Cosine.cosine_similarity float 0%float 1%float PrimFloat.add PrimFloat.mul
    PrimFloat.div PrimFloat.sqrt is_zero.

End F64.

(** The same index in exact arithmetic, over the real numbers. *)
Module Exact.

Import Reals.
Local Open Scope R_scope.

Definition is_zero (x : R) : bool := if Req_dec_T x 0 then true else false.

Definition dot : list R -> list R -> R := Cosine.dot R 0 Rplus Rmult.

Definition normalize : list R -> list R :=
  Cosine.normalize R 0 1 Rplus Rmult Rdiv sqrt is_zero.

Definition cosine_similarity : list (list R) -> list (list R) :=
  Cosine.cosine_similarity R 0 1 Rplus Rmult Rdiv sqrt is_zero.

End Exact.

(** ** Table preparation (sections 3 and 4 of the script) *)

(** How the top level of the script can stop: with the exception it raises
    itself when no title column is found, or with one a library call lets
    escape. *)
Inductive script_error : Type :=
| NoTitleColumn (message : string)
| Uncaught (e : exn).

Inductive script_result (A : Type) : Type :=
| Ready (a : A)
| Aborted (e : script_error).

Arguments Ready {A} a.
Arguments Aborted {A} e.

(** A data frame: its labelled columns, in order.  The frames the script
    handles come from [read_csv] and [merge]. *)
Definition frame (C : Type) : Type := list (string * list C).

Definition columns {C : Type} (df : frame C) : list string := map fst df.

(** [label in movies.columns]. *)
Definition has_column (label : string) (labels : list string) : bool :=
  existsb (String.eqb label) labels.

(** The [if]/[elif] chain that binds [title_col]. *)
Definition title_col (labels : list string) : script_result string :=
  if has_column "title" labels then Ready "title"
  else if has_column "original_title" labels then Ready "original_title"
  else if has_column "movie_title" labels then Ready "movie_title"
  else Aborted (NoTitleColumn "No movie title column found!").

(** [movies.rename(columns={old: new}, inplace=True)]: every column labelled
    [old] is relabelled, the others and the order are kept. *)
Definition rename_columns {C : Type} (old new : string) (df : frame C) : frame C :=
  map (fun column => (if String.eqb (fst column) old then new else fst column,
                      snd column)) df.

(** Section 3 of the script. *)
Definition fix_title_column {C : Type} (df : frame C) : script_result (frame C) :=
  match title_col (columns df) with
  | Ready label => Ready (rename_columns label "title" df)
  | Aborted e => Aborted e
  end.

(** [movies[labels]]: for each requested label, in the order of the request,
    the columns that carry it; a label no column carries is a [KeyError]. *)
Definition select_columns {C : Type} (labels : list string) (df : frame C)
  : outcome (frame C) :=
  if forallb (fun label => has_column label (columns df)) labels
  then Returned (flat_map (fun label =>
                   filter (fun column => String.eqb (fst column) label) df) labels)
  else Raised KeyError.

Definition required_columns : list string := ["title"; "overview"; "cast"; "crew"].

(** Sections 3 and 4 up to the column selection. *)
Definition prepare_table {C : Type} (df : frame C) : script_result (frame C) :=
  match fix_title_column df with
  | Ready renamed =>
      match select_columns required_columns renamed with
      | Returned selected => Ready selected
      | Raised e => Aborted (Uncaught e)
      end
  | Aborted e => Aborted e
  end.

(** A sample frame with the columns of the merged TMDB tables. *)
Definition sample_frame : frame (option string) :=
  [("id", [Some "19995"]);
   ("original_title", [Some "Avatar"]);
   ("overview", [Some "A marine on an alien planet"]);
   ("movie_id", [Some "19995"]);
   ("cast", [Some sample_cast]);
   ("crew", [None])].

(** * General facts about the Python primitives *)

Section ListFacts.

Context {A : Type}.

Lemma enumerate_from_length (l : list A) (start : nat) :
  List.length (enumerate_from start l) = List.length l.
Proof.
  revert start; induction l as [|x l IH]; intros start; simpl; auto.
Qed.

Lemma enumerate_from_fst (l : list A) (start : nat) :
  map fst (enumerate_from start l) = seq start (List.length l).
Proof.
  revert start; induction l as [|x l IH]; intros start; simpl; [reflexivity|].
  now rewrite IH.
Qed.

Lemma enumerate_from_In (l : list A) (start i : nat) (x : A) :
  In (i, x) (enumerate_from start l) <->
  start <= i /\ nth_error l (i - start) = Some x.
Proof.
  revert start; induction l as [|y l IH]; intros start; simpl.
  - split; [tauto|]. intros [_ H]. destruct (i - start); discriminate.
  - rewrite IH. split.
    + intros [H | [H1 H2]].
      * inversion H; subst. rewrite Nat.sub_diag. simpl. split; [lia | reflexivity].
      * split; [lia|]. replace (i - start) with (S (i - S start)) by lia. exact H2.
    + intros [H1 H2]. destruct (Nat.eq_dec start i) as [->|Hne].
      * left. rewrite Nat.sub_diag in H2. simpl in H2. now inversion H2.
      * right. split; [lia|].
        replace (i - start) with (S (i - S start)) in H2 by lia. exact H2.
Qed.

Lemma enumerate_In (l : list A) (i : nat) (x : A) :
  In (i, x) (enumerate l) <-> nth_error l i = Some x.
Proof.
  unfold enumerate. rewrite enumerate_from_In, Nat.sub_0_r.
  split; [tauto | split; [lia | assumption]].
Qed.

Lemma enumerate_NoDup_fst (l : list A) : NoDup (map fst (enumerate l)).
Proof.
  unfold enumerate. rewrite enumerate_from_fst. apply seq_NoDup.
Qed.

Lemma slice_from_one_length (l : list A) (n : Z) :
  List.length (slice l 1 (n + 1)) =
  if (n <? -1)%Z
  then Z.to_nat (Z.of_nat (List.length l) + n)
  else Z.to_nat (Z.min n (Z.of_nat (List.length l) - 1)).
Proof.
  unfold slice, clamp.
  rewrite length_firstn, length_skipn.
  change (1 <? 0)%Z with false; cbv iota.
  destruct (Z.ltb_spec n (-1)); destruct (Z.ltb_spec (n + 1) 0); lia.
Qed.

Lemma In_firstn (l : list A) (k : nat) (x : A) :
  In x (firstn k l) -> In x l.
Proof.
  intros H. rewrite <- (firstn_skipn k l). apply in_or_app. now left.
Qed.

Lemma slice_from_one_incl (l : list A) (n : Z) (x : A) :
  In x (slice l 1 (n + 1)) -> In x (tl l).
Proof.
  unfold slice, clamp. change (1 <? 0)%Z with false; cbv iota.
  intros H. apply In_firstn in H.
  destruct l as [|y l].
  - rewrite skipn_nil in H. exact H.
  - replace (Z.to_nat (Z.min 1 (Z.of_nat (List.length (y :: l))))) with 1 in H
      by (simpl List.length; lia).
    exact H.
Qed.

Lemma In_two_split (l : list A) (a b : A) :
  In a l -> In b l -> a <> b ->
  (exists l1 l2 l3, l = l1 ++ a :: l2 ++ b :: l3) \/
  (exists l1 l2 l3, l = l1 ++ b :: l2 ++ a :: l3).
Proof.
  intros Ha Hb Hne.
  destruct (in_split _ _ Ha) as (l1 & l2 & ->).
  apply in_app_or in Hb. destruct Hb as [Hb | [Hb | Hb]].
  - right. destruct (in_split _ _ Hb) as (m1 & m2 & ->).
    exists m1, m2, l2. now rewrite <- app_assoc.
  - contradiction.
  - left. destruct (in_split _ _ Hb) as (m1 & m2 & ->).
    now exists l1, m1, m2.
Qed.

Lemma StronglySorted_app_tail (R : A -> A -> Prop) (l1 l2 : list A) (x : A) :
  StronglySorted R (l1 ++ x :: l2) -> Forall (R x) l2.
Proof.
  induction l1 as [|y l1 IH]; simpl; intros H.
  - now inversion H.
  - inversion H; auto.
Qed.

End ListFacts.

(** * The ranking: a stable sort by descending score *)

Lemma score_lt_spec (a b : Q) : score_lt a b = true <-> (a < b)%Q.
Proof.
  unfold score_lt. rewrite negb_true_iff.
  destruct (Qle_bool b a) eqn:E.
  - apply Qle_bool_iff in E. split; [discriminate | intros H; lra].
  - split; [intros _ | reflexivity].
    destruct (Qlt_le_dec a b) as [H | H]; [assumption|].
    apply Qle_bool_iff in H. congruence.
Qed.

Lemma ranked_before_asym (a b : nat * Q) :
  ranked_before a b -> ranked_before b a -> False.
Proof.
  unfold ranked_before. intros [H1 | [H1 H2]] [H3 | [H3 H4]]; try lra; lia.
Qed.

Lemma ranked_before_trans (a b c : nat * Q) :
  ranked_before a b -> ranked_before b c -> ranked_before a c.
Proof.
  unfold ranked_before. intros [H1 | [H1 H2]] [H3 | [H3 H4]].
  - left; lra.
  - left; lra.
  - left; lra.
  - right; split; [lra | lia].
Qed.

Section StableSort.

Context {A : Type} (key : A -> Q).

Lemma insert_desc_perm (x : A) (l : list A) :
  Permutation (insert_desc key x l) (x :: l).
Proof.
  induction l as [|y l IH]; simpl; [reflexivity|].
  destruct (score_lt (key x) (key y)); [|reflexivity].
  rewrite IH. apply perm_swap.
Qed.

Lemma sorted_reverse_perm (l : list A) : Permutation (sorted_reverse key l) l.
Proof.
  induction l as [|x l IH]; simpl; [reflexivity|].
  rewrite insert_desc_perm. now constructor.
Qed.

End StableSort.

Lemma insert_desc_sorted (x : nat * Q) (l : list (nat * Q)) :
  StronglySorted ranked_before l ->
  Forall (fun y => fst x < fst y) l ->
  StronglySorted ranked_before (insert_desc snd x l).
Proof.
  induction 1 as [|y l Hs IH Hy]; intros Hx; simpl.
  - repeat constructor.
  - inversion Hx as [|? ? Hxy Hxl]; subst.
    destruct (score_lt (snd x) (snd y)) eqn:E.
    + apply score_lt_spec in E. constructor; [now apply IH|].
      eapply Permutation_Forall; [symmetry; apply insert_desc_perm|].
      constructor; [now left | assumption].
    + assert (Hxy' : ranked_before x y).
      { destruct (Qlt_le_dec (snd y) (snd x)) as [H | H]; [now left|].
        right. split; [|assumption].
        destruct (Qlt_le_dec (snd x) (snd y)) as [H' | H']; [|lra].
        apply score_lt_spec in H'. congruence. }
      constructor; [now constructor|].
      constructor; [assumption|].
      eapply Forall_impl; [|exact Hy].
      intros z Hz. eapply ranked_before_trans; eassumption.
Qed.

Lemma enumerate_from_lower {A : Type} (l : list A) (start : nat) :
  Forall (fun y => start <= fst y) (enumerate_from start l).
Proof.
  revert start; induction l as [|x l IH]; intros start; simpl; constructor.
  - simpl; lia.
  - eapply Forall_impl; [|apply (IH (S start))]. simpl; intros; lia.
Qed.

Lemma sorted_reverse_enumerate_from (row : list Q) (start : nat) :
  StronglySorted ranked_before (sorted_reverse snd (enumerate_from start row)).
Proof.
  revert start; induction row as [|s row IH]; intros start; simpl.
  - constructor.
  - apply insert_desc_sorted; [apply IH|].
    eapply Permutation_Forall; [symmetry; apply sorted_reverse_perm|].
    eapply Forall_impl; [|apply (enumerate_from_lower row (S start))].
    simpl; intros; lia.
Qed.

Lemma ranking_perm (row : list Q) : Permutation (ranking row) (enumerate row).
Proof. apply sorted_reverse_perm. Qed.

Lemma ranking_sorted (row : list Q) : StronglySorted ranked_before (ranking row).
Proof. apply sorted_reverse_enumerate_from. Qed.

Lemma ranking_length (row : list Q) : List.length (ranking row) = List.length row.
Proof.
  rewrite (Permutation_length (ranking_perm row)).
  apply enumerate_from_length.
Qed.

Lemma ranking_In (row : list Q) (i : nat) (s : Q) :
  In (i, s) (ranking row) <-> nth_error row i = Some s.
Proof.
  rewrite <- enumerate_In. split; apply Permutation_in;
    [apply ranking_perm | symmetry; apply ranking_perm].
Qed.

Lemma ranking_NoDup_fst (row : list Q) : NoDup (map fst (ranking row)).
Proof.
  eapply Permutation_NoDup; [|apply (enumerate_NoDup_fst row)].
  apply Permutation_map. symmetry. apply ranking_perm.
Qed.

(** C4.  The ranking used by [recommend_movie] is a rearrangement of the
    enumerated similarity row, sorted by descending score with ties in
    ascending catalog index: whenever entry [i] has a larger score than entry
    [j], or the same score and a smaller index, it stands before it.  Being a
    function of the row, the ranking is the same on every run. *)
Theorem ranking_descending_stable (row : list Q) :
  Permutation (ranking row) (enumerate row) /\
  StronglySorted ranked_before (ranking row) /\
  (forall i j si sj,
      nth_error row i = Some si ->
      nth_error row j = Some sj ->
      (sj < si)%Q \/ ((si == sj)%Q /\ i < j) ->
      exists l1 l2 l3, ranking row = l1 ++ (i, si) :: l2 ++ (j, sj) :: l3).
Proof.
  split; [apply ranking_perm|]. split; [apply ranking_sorted|].
  intros i j si sj Hi Hj Hord.
  assert (Hb : ranked_before (i, si) (j, sj)) by exact Hord.
  assert (Hne : (i, si) <> (j, sj)).
  { intros E. rewrite E in Hb. exact (ranked_before_asym _ _ Hb Hb). }
  apply ranking_In in Hi, Hj.
  destruct (In_two_split _ _ _ Hi Hj Hne) as [H | (l1 & l2 & l3 & E)];
    [exact H|].
  exfalso. pose proof (ranking_sorted row) as Hs. rewrite E in Hs.
  apply StronglySorted_app_tail in Hs.
  rewrite Forall_forall in Hs.
  apply (ranked_before_asym _ _ Hb). apply Hs.
  apply in_or_app. right. now left.
Qed.

Lemma ranking_descending_stable_witness :
  exists l1 l2 l3,
    ranking [1#2; 1; 1#2]%Q = l1 ++ (0, (1#2)%Q) :: l2 ++ (2, (1#2)%Q) :: l3.
Proof.
  apply (proj2 (proj2 (ranking_descending_stable [1#2; 1; 1#2]%Q)) 0 2);
    [reflexivity | reflexivity |].
  right. split; [reflexivity | lia].
Defined.

(** * The recommender *)

Lemma title_in_spec (movie_name : string) (titles : list string) :
  title_in movie_name titles = true <-> In movie_name titles.
Proof.
  unfold title_in. rewrite existsb_exists. split.
  - intros (t & Ht & E). apply String.eqb_eq in E. now subst.
  - intros H. exists movie_name. split; [assumption | apply String.eqb_refl].
Qed.

Lemma matching_index_from (movie_name : string) (titles : list string) (start : nat) :
  In movie_name titles ->
  exists i rest,
    map fst (filter (fun row => String.eqb (snd row) movie_name)
               (enumerate_from start titles)) = (start + i) :: rest /\
    nth_error titles i = Some movie_name /\
    (forall j, j < i -> nth_error titles j <> Some movie_name).
Proof.
  revert start; induction titles as [|t titles IH]; intros start Hin; [destruct Hin|].
  simpl. destruct (String.eqb t movie_name) eqn:E.
  - apply String.eqb_eq in E. subst t. exists 0. eexists. simpl.
    rewrite Nat.add_0_r. split; [reflexivity|]. split; [reflexivity|]. intros; lia.
  - apply String.eqb_neq in E. destruct Hin as [Hin | Hin]; [congruence|].
    destruct (IH (S start) Hin) as (i & rest & H1 & H2 & H3).
    exists (S i), rest. split; [|split].
    + rewrite H1. f_equal. lia.
    + exact H2.
    + intros [|j] Hj; simpl; [congruence | apply H3; lia].
Qed.

Lemma matching_index_first (movie_name : string) (titles : list string) :
  In movie_name titles ->
  exists i rest,
    matching_index movie_name titles = i :: rest /\
    nth_error titles i = Some movie_name /\
    (forall j, j < i -> nth_error titles j <> Some movie_name).
Proof.
  intros Hin. exact (matching_index_from movie_name titles 0 Hin).
Qed.

Lemma collect_titles_rel (titles : list string) (picks : list (nat * Q)) (r : list string) :
  collect_titles titles picks = Returned r ->
  Forall2 (fun p t => nth_error titles (fst p) = Some t) picks r.
Proof.
  revert r; induction picks as [|p picks IH]; simpl; intros r H.
  - inversion H. constructor.
  - unfold index_at in H. destruct (nth_error titles (fst p)) eqn:E; [|discriminate].
    simpl in H. destruct (collect_titles titles picks) as [more|]; [|discriminate].
    simpl in H. inversion H; subst. constructor; auto.
Qed.

Lemma collect_titles_returns (titles : list string) (picks : list (nat * Q)) :
  Forall (fun p => fst p < List.length titles) picks ->
  exists r, collect_titles titles picks = Returned r.
Proof.
  induction 1 as [|p picks Hp _ [more IH]]; simpl; [now eexists|].
  unfold index_at. destruct (nth_error titles (fst p)) eqn:E.
  - rewrite IH. simpl. now eexists.
  - apply nth_error_None in E. lia.
Qed.

Lemma is_square_row (st : module_state) (index : nat) :
  is_square st = true ->
  index < List.length (movie_titles st) ->
  exists row, nth_error (similarity_matrix st) index = Some row /\
              List.length row = List.length (movie_titles st).
Proof.
  unfold is_square. intros H Hi. apply andb_true_iff in H. destruct H as [H1 H2].
  apply Nat.eqb_eq in H1.
  destruct (nth_error (similarity_matrix st) index) as [row|] eqn:E.
  - exists row. split; [reflexivity|]. rewrite forallb_forall in H2.
    apply Nat.eqb_eq. apply H2. eapply nth_error_In; eassumption.
  - apply nth_error_None in E. lia.
Qed.

(** On a square matrix the part of [recommend_movie] after the lookup returns
    the titles at the catalog indices of the sliced ranking, in order. *)
Lemma recommend_at_returns (st : module_state) (index : nat) (top_n : Z) :
  is_square st = true ->
  index < List.length (movie_titles st) ->
  exists row r,
    nth_error (similarity_matrix st) index = Some row /\
    List.length row = List.length (movie_titles st) /\
    recommend_at st index top_n = Returned r /\
    Forall2 (fun p t => nth_error (movie_titles st) (fst p) = Some t)
      (slice (ranking row) 1 (top_n + 1)) r.
Proof.
  intros Hsq Hi. destruct (is_square_row st index Hsq Hi) as (row & Hrow & Hlen).
  assert (Hb : Forall (fun p => fst p < List.length (movie_titles st))
                 (slice (ranking row) 1 (top_n + 1))).
  { apply Forall_forall. intros [i s] Hin. simpl.
    unfold slice in Hin. apply In_firstn in Hin.
    assert (Hin' : In (i, s) (ranking row)).
    { rewrite <- (firstn_skipn (Z.to_nat (clamp (Z.of_nat (List.length (ranking row))) 1))
                    (ranking row)).
      apply in_or_app. now right. }
    apply ranking_In in Hin'. rewrite <- Hlen. apply nth_error_Some. congruence. }
  destruct (collect_titles_returns _ _ Hb) as [r Hr].
  exists row, r. repeat split; try assumption.
  - unfold recommend_at, index_at. rewrite Hrow. simpl. exact Hr.
  - now apply collect_titles_rel.
Qed.

Lemma recommend_movie_found (st : module_state) (movie_name : string) (top_n : Z) :
  In movie_name (movie_titles st) ->
  exists index,
    nth_error (movie_titles st) index = Some movie_name /\
    (forall j, j < index -> nth_error (movie_titles st) j <> Some movie_name) /\
    recommend_movie st movie_name top_n = recommend_at st index top_n.
Proof.
  intros Hin.
  destruct (matching_index_first _ _ Hin) as (i & rest & Hm & Hi & Hleast).
  exists i. repeat split; try assumption.
  unfold recommend_movie. apply title_in_spec in Hin. rewrite Hin. simpl.
  rewrite Hm. reflexivity.
Qed.

Lemma Forall2_In_r {A B : Type} (R : A -> B -> Prop) (l : list A) (r : list B) (t : B) :
  Forall2 R l r -> In t r -> exists p, In p l /\ R p t.
Proof.
  induction 1 as [|p t' l r Hpt _ IH]; intros Hin; [destruct Hin|].
  destruct Hin as [-> | Hin].
  - exists p. split; [now left | assumption].
  - destruct (IH Hin) as (p' & Hp' & HR). exists p'. split; [now right | assumption].
Qed.

Lemma recommend_at_titles (st : module_state) (index : nat) (top_n : Z)
      (r : list string) (t : string) :
  recommend_at st index top_n = Returned r -> In t r -> In t (movie_titles st).
Proof.
  unfold recommend_at, index_at.
  destruct (nth_error (similarity_matrix st) index) as [row|]; [|discriminate].
  simpl. intros H Hin. apply collect_titles_rel in H.
  destruct (Forall2_In_r _ _ _ _ H Hin) as (p & _ & Hp).
  eapply nth_error_In; eassumption.
Qed.

(** C9.  When a title occurs in two rows of the catalog, the lookup settles
    on the first row carrying it: the query index is the least index with
    that title, it is not after either of the two rows, and the
    recommendations are those computed from that row of the matrix. *)
Theorem recommend_movie_first_match (st : module_state) (movie_name : string)
        (top_n : Z) (i j : nat) :
  i < j ->
  nth_error (movie_titles st) i = Some movie_name ->
  nth_error (movie_titles st) j = Some movie_name ->
  exists index,
    index <= i /\
    nth_error (movie_titles st) index = Some movie_name /\
    (forall k, k < index -> nth_error (movie_titles st) k <> Some movie_name) /\
    recommend_movie st movie_name top_n = recommend_at st index top_n.
Proof.
  intros _ Hi _.
  destruct (recommend_movie_found st movie_name top_n (nth_error_In _ _ Hi))
    as (index & H1 & H2 & H3).
  exists index. repeat split; try assumption.
  destruct (Nat.le_gt_cases index i) as [H | H]; [assumption|].
  exfalso. exact (H2 i H Hi).
Qed.

Lemma recommend_movie_first_match_witness :
  exists index,
    index <= 0 /\
    nth_error (movie_titles repeated_title) index = Some "Hamlet" /\
    (forall k, k < index ->
               nth_error (movie_titles repeated_title) k <> Some "Hamlet") /\
    recommend_movie repeated_title "Hamlet" 5 = recommend_at repeated_title index 5.
Proof.
  apply (recommend_movie_first_match repeated_title "Hamlet" 5 0 2);
    [lia | reflexivity | reflexivity].
Defined.

(** C5.  For a title of the catalog and a positive [top_n] the call returns
    exactly [min(top_n, N - 1)] titles, [N] being the catalog size, hence at
    most [top_n] of them, and it does not raise. *)
Theorem recommend_movie_length (st : module_state) (movie_name : string) (top_n : Z) :
  is_square st = true ->
  In movie_name (movie_titles st) ->
  (0 < top_n)%Z ->
  exists r,
    recommend_movie st movie_name top_n = Returned r /\
    List.length r =
      Z.to_nat (Z.min top_n (Z.of_nat (List.length (movie_titles st)) - 1)) /\
    (Z.of_nat (List.length r) <= top_n)%Z.
Proof.
  intros Hsq Hin Hpos.
  destruct (recommend_movie_found st movie_name top_n Hin) as (index & Hi & _ & E).
  assert (Hlt : index < List.length (movie_titles st))
    by (apply nth_error_Some; congruence).
  destruct (recommend_at_returns st index top_n Hsq Hlt) as (row & r & _ & Hlen & Hr & HF).
  exists r. rewrite E. split; [assumption|].
  apply Forall2_length in HF.
  rewrite slice_from_one_length, ranking_length, Hlen in HF.
  destruct (Z.ltb_spec top_n (-1)); lia.
Qed.

Lemma recommend_movie_length_witness :
  exists r,
    recommend_movie three_movies "Avatar" 5 = Returned r /\
    List.length r = Z.to_nat (Z.min 5 (Z.of_nat 3 - 1)) /\
    (Z.of_nat (List.length r) <= 5)%Z.
Proof.
  apply (recommend_movie_length three_movies "Avatar" 5);
    [reflexivity | simpl; auto | lia].
Defined.

(** C3, as the code has it.  For a title of the catalog and [top_n <= 0] the
    call does not raise.  It returns the empty list when [top_n] is 0 or -1;
    for [top_n <= -2] the slice bound [top_n + 1] is negative and counts from
    the end of the ranking, so the call returns [N + top_n] titles when that
    number is positive and none otherwise. *)
Theorem recommend_movie_nonpositive (st : module_state) (movie_name : string)
        (top_n : Z) :
  is_square st = true ->
  In movie_name (movie_titles st) ->
  (top_n <= 0)%Z ->
  exists r,
    recommend_movie st movie_name top_n = Returned r /\
    List.length r =
      (if (top_n <? -1)%Z
       then Z.to_nat (Z.of_nat (List.length (movie_titles st)) + top_n)
       else 0) /\
    ((-1 <= top_n)%Z -> r = []).
Proof.
  intros Hsq Hin Hle.
  destruct (recommend_movie_found st movie_name top_n Hin) as (index & Hi & _ & E).
  assert (Hlt : index < List.length (movie_titles st))
    by (apply nth_error_Some; congruence).
  destruct (recommend_at_returns st index top_n Hsq Hlt) as (row & r & _ & Hlen & Hr & HF).
  exists r. rewrite E. split; [assumption|].
  apply Forall2_length in HF.
  rewrite slice_from_one_length, ranking_length, Hlen in HF.
  assert (HL : List.length r =
               if (top_n <? -1)%Z
               then Z.to_nat (Z.of_nat (List.length (movie_titles st)) + top_n)
               else 0).
  { destruct (Z.ltb_spec top_n (-1)); lia. }
  split; [exact HL|].
  intros Hge. destruct (Z.ltb_spec top_n (-1)); [lia|].
  destruct r; [reflexivity | discriminate].
Qed.

Lemma recommend_movie_nonpositive_witness :
  exists r,
    recommend_movie three_movies "Avatar" (-2) = Returned r /\
    List.length r = (if (-2 <? -1)%Z then Z.to_nat (Z.of_nat 3 + -2) else 0) /\
    ((-1 <= -2)%Z -> r = []).
Proof.
  apply (recommend_movie_nonpositive three_movies "Avatar" (-2));
    [reflexivity | simpl; auto | lia].
Defined.

(** C3 fails as stated: with three movies and [top_n = -2] the call returns
    one title. *)
Lemma recommend_movie_negative_nonempty :
  is_square three_movies = true /\
  In "Avatar" (movie_titles three_movies) /\
  (-2 <= 0)%Z /\
  recommend_movie three_movies "Avatar" (-2) = Returned ["Alien"] /\
  ~ (forall (st : module_state) (movie_name : string) (top_n : Z),
        is_square st = true -> In movie_name (movie_titles st) -> (top_n <= 0)%Z ->
        recommend_movie st movie_name top_n = Returned []).
Proof.
  split; [reflexivity|]. split; [simpl; auto|]. split; [lia|].
  split; [reflexivity|].
  intros H. specialize (H three_movies "Avatar" (-2)%Z).
  assert (E : recommend_movie three_movies "Avatar" (-2) = Returned [])
    by (apply H; [reflexivity | simpl; auto | lia]).
  discriminate E.
Qed.

(** C2, as the code has it.  For a title that is not in the catalog the call
    raises nothing and returns, whatever [top_n], the one-element list holding
    the message "Movie not found in database".  That list is not empty, and it
    differs from every list of recommendations provided no movie of the
    catalog bears the message as its title. *)
Theorem recommend_movie_unknown_title (st : module_state) (movie_name : string)
        (top_n : Z) :
  ~ In movie_name (movie_titles st) ->
  recommend_movie st movie_name top_n = Returned ["Movie not found in database"] /\
  recommend_movie st movie_name top_n <> Returned [] /\
  (~ In "Movie not found in database" (movie_titles st) ->
   forall other n, In other (movie_titles st) ->
                   recommend_movie st other n <> recommend_movie st movie_name top_n).
Proof.
  intros Hnot.
  assert (E : recommend_movie st movie_name top_n = Returned not_found).
  { unfold recommend_movie.
    destruct (title_in movie_name (movie_titles st)) eqn:Ht; [|reflexivity].
    apply title_in_spec in Ht. contradiction. }
  split; [exact E|]. split; [rewrite E; discriminate|].
  intros Hfree other n Hother Heq. rewrite E in Heq.
  destruct (recommend_movie_found st other n Hother) as (index & _ & _ & Hat).
  rewrite Hat in Heq. apply Hfree.
  eapply recommend_at_titles; [exact Heq | now left].
Qed.

Lemma recommend_movie_unknown_title_witness :
  recommend_movie three_movies "Nonexistent Movie" 5
    = Returned ["Movie not found in database"] /\
  recommend_movie three_movies "Nonexistent Movie" 5 <> Returned [] /\
  (~ In "Movie not found in database" (movie_titles three_movies) ->
   forall other n, In other (movie_titles three_movies) ->
                   recommend_movie three_movies other n
                   <> recommend_movie three_movies "Nonexistent Movie" 5).
Proof.
  apply (recommend_movie_unknown_title three_movies "Nonexistent Movie" 5).
  simpl. intros [H | [H | [H | H]]]; try discriminate H; exact H.
Defined.

(** C2 fails as stated: the answer for an unknown title is an ordinary list
    of strings, and it coincides with the recommendations for "Up" in a
    catalog that has a movie titled like the message. *)
Lemma not_found_is_a_recommendation_list :
  ~ In "Nonexistent Movie" (movie_titles sentinel_title) /\
  In "Up" (movie_titles sentinel_title) /\
  is_square sentinel_title = true /\
  recommend_movie sentinel_title "Up" 1 = Returned ["Movie not found in database"] /\
  recommend_movie sentinel_title "Nonexistent Movie" 1
    = recommend_movie sentinel_title "Up" 1.
Proof.
  split; [simpl; intros [H | [H | H]]; try discriminate H; exact H|].
  split; [simpl; auto|].
  repeat split.
Qed.

(** C1, amended.  When the query title occurs once in the catalog and no
    other entry of the query row outranks the query item (none has a larger
    score, and none with a smaller catalog index has an equal score), the
    returned list does not contain the query title, whatever [top_n]. *)
Theorem recommend_movie_excludes_query (st : module_state) (movie_name : string)
        (top_n : Z) (index : nat) (row : list Q) (self : Q) :
  is_square st = true ->
  nth_error (movie_titles st) index = Some movie_name ->
  (forall j, nth_error (movie_titles st) j = Some movie_name -> j = index) ->
  nth_error (similarity_matrix st) index = Some row ->
  nth_error row index = Some self ->
  (forall j s, nth_error row j = Some s -> j <> index ->
               (s < self)%Q \/ ((s == self)%Q /\ index < j)) ->
  exists r,
    recommend_movie st movie_name top_n = Returned r /\ ~ In movie_name r.
Proof.
  intros Hsq Hidx Honce Hrow Hself Hfirst.
  assert (Hlt : index < List.length (movie_titles st))
    by (apply nth_error_Some; congruence).
  destruct (recommend_movie_found st movie_name top_n (nth_error_In _ _ Hidx))
    as (index' & Hi' & _ & E).
  assert (index' = index) by (now apply Honce).
  subst index'.
  destruct (recommend_at_returns st index top_n Hsq Hlt)
    as (row' & r & Hrow' & _ & Hr & HF).
  assert (row' = row) by congruence. subst row'.
  exists r. rewrite E. split; [assumption|].
  intros Hin.
  destruct (Forall2_In_r _ _ _ _ HF Hin) as ([k s] & Hp & Hk). simpl in Hk.
  assert (k = index) by (now apply Honce).
  subst k.
  apply slice_from_one_incl in Hp.
  pose proof (ranking_sorted row) as Hs.
  pose proof (ranking_NoDup_fst row) as Hn.
  assert (Hall : forall p, In p (ranking row) -> nth_error row (fst p) = Some (snd p)).
  { intros [a b] Ha. now apply ranking_In. }
  destruct (ranking row) as [|[j t] rest]; [destruct Hp|].
  simpl in Hp, Hn.
  inversion Hs as [|? ? _ Hhead]; subst.
  inversion Hn as [|? ? Hfresh _]; subst.
  assert (Hs' : s = self).
  { pose proof (Hall (index, s) (or_intror Hp)) as H. simpl in H. congruence. }
  subst s.
  assert (Hj : j <> index).
  { intros ->. apply Hfresh. apply (in_map fst) in Hp. exact Hp. }
  rewrite Forall_forall in Hhead.
  apply (ranked_before_asym (j, t) (index, self)); [now apply Hhead|].
  destruct (Hfirst j t (Hall (j, t) (or_introl eq_refl)) Hj) as [H | [H1 H2]].
  - now left.
  - right. simpl. split; [symmetry; exact H1 | exact H2].
Qed.

Lemma recommend_movie_excludes_query_witness :
  exists r,
    recommend_movie other_title_repeated "Avatar" 5 = Returned r /\ ~ In "Avatar" r.
Proof.
  apply (recommend_movie_excludes_query other_title_repeated "Avatar" 5 0
           [1; 1#2; 1#2]%Q 1%Q);
    try reflexivity.
  - intros [|[|[|[|j]]]] H; simpl in H; try discriminate H; reflexivity.
  - intros [|[|[|[|j]]]] s H Hne; simpl in H; try discriminate H;
      try (exfalso; apply Hne; reflexivity);
      inversion H; subst; left; reflexivity.
Defined.

(** C1 fails as stated, in two ways.  With two movies of identical signatures
    every score of the matrix is 1; the stable sort puts index 0 first, so a
    query for the second movie drops the first and returns the query title
    itself.  With a repeated title the other row bearing it is recommended. *)
Lemma recommend_movie_returns_query_title :
  (is_square twin_signatures = true /\
   In "Aliens" (movie_titles twin_signatures) /\
   recommend_movie twin_signatures "Aliens" 1 = Returned ["Aliens"]) /\
  (is_square repeated_title = true /\
   In "Hamlet" (movie_titles repeated_title) /\
   recommend_movie repeated_title "Hamlet" 5 = Returned ["Hamlet"; "Macbeth"]) /\
  ~ (forall (st : module_state) (movie_name : string) (top_n : Z) (r : list string),
        is_square st = true -> In movie_name (movie_titles st) ->
        recommend_movie st movie_name top_n = Returned r -> ~ In movie_name r).
Proof.
  split; [split; [reflexivity | split; [simpl; auto | reflexivity]]|].
  split; [split; [reflexivity | split; [simpl; auto | reflexivity]]|].
  intros H.
  apply (H twin_signatures "Aliens" 1%Z ["Aliens"]);
    [reflexivity | simpl; auto | reflexivity | now left].
Qed.

(** * The signature builder *)

Lemma string_app_assoc (a b c : string) :
  ((a ++ b) ++ c = a ++ (b ++ c))%string.
Proof.
  induction a as [|ch a IH]; simpl; [reflexivity | now rewrite IH].
Qed.

Lemma join_strings (sep : string) (names : list string) :
  join sep (map PyStr names) = Returned (String.concat sep names).
Proof.
  induction names as [|s names IH]; [reflexivity|].
  destruct names as [|s' names]; [reflexivity|].
  change (join sep (map PyStr (s :: s' :: names)))
    with (t <- join sep (map PyStr (s' :: names)) ;; Returned (s ++ sep ++ t)%string).
  rewrite IH. reflexivity.
Qed.

Section SignatureBuilderFacts.

Variable literal_eval : string -> outcome pyval.

Lemma append_names_stops (pre post : list pyval) (bad : pyval) (e : exn)
      (collected acc : list pyval) :
  Forall2 (fun v name => getitem v "name" = Returned name) pre collected ->
  getitem bad "name" = Raised e ->
  append_names (pre ++ bad :: post) acc = (acc ++ collected, Raised e).
Proof.
  intros HF Hbad. revert acc.
  induction HF as [|v name pre collected Hv _ IH]; intros acc; simpl.
  - rewrite Hbad, app_nil_r. reflexivity.
  - rewrite Hv, IH, <- app_assoc. reflexivity.
Qed.

Lemma find_director_records (people : list pyval) (records : list (string * string)) :
  Forall2 crew_record people records ->
  find_director people =
    Returned (option_map (fun r => PyStr (snd r))
                (find (fun r => String.eqb (fst r) "Director") records)).
Proof.
  induction 1 as [|v r people records [Hjob Hname] _ IH]; simpl; [reflexivity|].
  rewrite Hjob. simpl.
  destruct (String.eqb (fst r) "Director"); simpl.
  - rewrite Hname. reflexivity.
  - exact IH.
Qed.

(** C10.  When the cast parses to a list and one of its first three entries
    is a dictionary without a "name" key, [get_top_actors] joins the names
    collected before that entry, whatever follows it; when those names are
    strings the result is their concatenation with single spaces, possibly
    not empty. *)
Theorem get_top_actors_partial (cast : string) (records pre post : list pyval)
        (d : list (pyval * pyval)) (collected : list pyval) :
  literal_eval cast = Returned (PyList records) ->
  firstn 3 records = pre ++ PyDict d :: post ->
  Forall2 (fun v name => getitem v "name" = Returned name) pre collected ->
  dict_get d "name" = None ->
  get_top_actors literal_eval cast = join " " collected /\
  (forall names, collected = map PyStr names ->
                 get_top_actors literal_eval cast = Returned (String.concat " " names)).
Proof.
  intros Hparse Hsplit Hpre Hbad.
  assert (E : get_top_actors literal_eval cast = join " " collected).
  { unfold get_top_actors, top_actors_try. rewrite Hparse.
    unfold slice3, iter, bind. rewrite Hsplit.
    rewrite (append_names_stops pre post (PyDict d) KeyError collected []);
      [reflexivity | assumption |].
    simpl. now rewrite Hbad. }
  split; [exact E|].
  intros names ->. rewrite E. apply join_strings.
Qed.

(** C8.  On a crew that parses to a list of records, each with a job and a
    name, [get_director] returns the name of the first record whose job is
    exactly "Director", and the empty string when no record has that job. *)
Theorem get_director_first_match (crew : string) (people : list pyval)
        (records : list (string * string)) :
  literal_eval crew = Returned (PyList people) ->
  Forall2 crew_record people records ->
  get_director literal_eval crew = PyStr (first_director records).
Proof.
  intros Hparse Hrec. unfold get_director, first_director.
  rewrite Hparse. simpl. rewrite (find_director_records _ _ Hrec).
  destruct (find _ records); reflexivity.
Qed.


End SignatureBuilderFacts.

Lemma get_top_actors_partial_witness :
  get_top_actors sample_literal_eval sample_cast
    = join " " [PyStr "Sam Worthington"] /\
  (forall names, [PyStr "Sam Worthington"] = map PyStr names ->
     get_top_actors sample_literal_eval sample_cast
       = Returned (String.concat " " names)).
Proof.
  apply (get_top_actors_partial sample_literal_eval sample_cast
           [PyDict [(PyStr "name", PyStr "Sam Worthington")];
            PyDict [(PyStr "id", PyInt 8691)];
            PyDict [(PyStr "name", PyStr "Sigourney Weaver")]]
           [PyDict [(PyStr "name", PyStr "Sam Worthington")]]
           [PyDict [(PyStr "name", PyStr "Sigourney Weaver")]]
           [(PyStr "id", PyInt 8691)]
           [PyStr "Sam Worthington"]);
    try reflexivity.
  repeat constructor.
Defined.

Lemma get_director_first_match_witness :
  get_director sample_literal_eval sample_crew
    = PyStr (first_director [("Editor", "Stephen Rivkin");
                             ("Director", "James Cameron")]).
Proof.
  apply (get_director_first_match sample_literal_eval sample_crew
           [PyDict [(PyStr "job", PyStr "Editor");
                    (PyStr "name", PyStr "Stephen Rivkin")];
            PyDict [(PyStr "job", PyStr "Director");
                    (PyStr "name", PyStr "James Cameron")]]);
    [reflexivity|].
  repeat constructor.
Defined.



(** * Evaluations *)

(** The ranking of the first row of [three_movies] and the recommendations
    read off it. *)
Example ranking_avatar_row :
  ranking [1; 1#2; 1#4]%Q = [(0, 1%Q); (1, (1#2)%Q); (2, (1#4)%Q)].
Proof. reflexivity. Qed.

Example recommend_avatar_two :
  recommend_movie three_movies "Avatar" 2 = Returned ["Alien"; "Titanic"].
Proof. reflexivity. Qed.

Example recommend_titanic_default :
  recommend_movie three_movies "Titanic" 5 = Returned ["Avatar"; "Alien"].
Proof. reflexivity. Qed.

(** The job is compared exactly: a lower-case "director" is no match. *)
Example get_director_case_sensitive :
  get_director
    (fun _ => Returned (PyList [PyDict [(PyStr "job", PyStr "director");
                                        (PyStr "name", PyStr "Ridley Scott")]]))
    "crew" = PyStr "".
Proof. reflexivity. Qed.

(** A record without a "job" key ahead of the director ends the scan. *)
Example get_director_stops_at_missing_job :
  get_director
    (fun _ => Returned (PyList [PyDict [(PyStr "name", PyStr "Stephen Rivkin")];
                                PyDict [(PyStr "job", PyStr "Director");
                                        (PyStr "name", PyStr "James Cameron")]]))
    "crew" = PyStr "".
Proof. reflexivity. Qed.

(** Only the first three cast entries are read. *)
Example get_top_actors_first_three :
  get_top_actors
    (fun _ => Returned (PyList [PyDict [(PyStr "name", PyStr "A")];
                                PyDict [(PyStr "name", PyStr "B")];
                                PyDict [(PyStr "name", PyStr "C")];
                                PyDict [(PyStr "name", PyStr "D")]]))
    "cast" = Returned "A B C".
Proof. reflexivity. Qed.

(** * More on the recommender *)

Section SublistFacts.

Context {A : Type}.

Lemma slice_from_one_nonneg (l : list A) (k : Z) :
  (0 <= k)%Z -> slice l 1 (k + 1) = firstn (Z.to_nat k) (tl l).
Proof.
  intros Hk. unfold slice, clamp. change (1 <? 0)%Z with false; cbv iota.
  destruct (Z.ltb_spec (k + 1) 0); [lia|].
  destruct l as [|x l].
  - rewrite skipn_nil. simpl tl. rewrite !firstn_nil. reflexivity.
  - replace (Z.to_nat (Z.min 1 (Z.of_nat (List.length (x :: l))))) with 1
      by (simpl List.length; lia).
    simpl skipn. simpl tl.
    destruct (Z.le_gt_cases k (Z.of_nat (List.length l))) as [Hle | Hgt].
    + f_equal. simpl List.length. lia.
    + rewrite !firstn_all2; [reflexivity | lia | simpl List.length; lia].
Qed.

Lemma StronglySorted_app (R : A -> A -> Prop) (l1 l2 : list A) :
  StronglySorted R (l1 ++ l2) -> StronglySorted R l1 /\ StronglySorted R l2.
Proof.
  induction l1 as [|x l1 IH]; simpl; intros H.
  - split; [constructor | assumption].
  - inversion H as [|? ? Hs Hx]; subst. destruct (IH Hs) as [H1 H2].
    split; [|assumption]. constructor; [assumption|].
    apply Forall_app in Hx. tauto.
Qed.

Lemma StronglySorted_firstn (R : A -> A -> Prop) (l : list A) (k : nat) :
  StronglySorted R l -> StronglySorted R (firstn k l).
Proof.
  intros H. rewrite <- (firstn_skipn k l) in H.
  now apply StronglySorted_app in H.
Qed.

Lemma StronglySorted_tl (R : A -> A -> Prop) (l : list A) :
  StronglySorted R l -> StronglySorted R (tl l).
Proof.
  destruct l; simpl; [trivial|]. now inversion 1.
Qed.

Lemma NoDup_firstn (l : list A) (k : nat) : NoDup l -> NoDup (firstn k l).
Proof.
  intros H. rewrite <- (firstn_skipn k l) in H.
  now apply NoDup_app_remove_r in H.
Qed.

Lemma NoDup_tl (l : list A) : NoDup l -> NoDup (tl l).
Proof.
  destruct l; simpl; [trivial|]. now inversion 1.
Qed.

Lemma In_tl (l : list A) (x : A) : In x (tl l) -> In x l.
Proof.
  destruct l; simpl; [trivial | now right].
Qed.

Lemma map_nth_seq (l : list A) (d : A) :
  map (fun i => nth i l d) (seq 0 (List.length l)) = l.
Proof.
  induction l as [|x l IH]; [reflexivity|].
  simpl. f_equal. rewrite <- seq_shift, map_map. exact IH.
Qed.

Lemma NoDup_map_nth (l : list A) (d : A) (indices : list nat) :
  NoDup l -> NoDup indices ->
  Forall (fun i => i < List.length l) indices ->
  NoDup (map (fun i => nth i l d) indices).
Proof.
  intros Hl Hi Hb. induction Hi as [|i indices Hfresh _ IH]; simpl; [constructor|].
  inversion Hb as [|? ? Hlt Hb']; subst.
  constructor; [|now apply IH].
  intros Hin. apply in_map_iff in Hin. destruct Hin as (j & Hj & Hjin).
  rewrite Forall_forall in Hb'.
  assert (j = i).
  { apply (proj1 (NoDup_nth l d) Hl); [now apply Hb' | assumption | assumption]. }
  subst j. contradiction.
Qed.

End SublistFacts.

(** The title at a catalog index, as the loop of [recommend_movie] reads it on
    an index that is in range. *)
Lemma collect_titles_map (titles : list string) (picks : list (nat * Q))
      (r : list string) :
  collect_titles titles picks = Returned r ->
  r = map (fun i => nth i titles "") (map fst picks).
Proof.
  intros H. apply collect_titles_rel in H.
  induction H as [|p t picks r Hp _ IH]; [reflexivity|].
  simpl. f_equal; [|exact IH].
  symmetry. now apply nth_error_nth.
Qed.

(** The precedence of two entries of a row in its ranking. *)
Lemma ranking_precedes (row : list Q) (i j : nat) (si sj : Q) :
  nth_error row i = Some si ->
  nth_error row j = Some sj ->
  ranked_before (i, si) (j, sj) ->
  exists l1 l2 l3, ranking row = l1 ++ (i, si) :: l2 ++ (j, sj) :: l3.
Proof.
  intros Hi Hj Hb.
  assert (Hne : (i, si) <> (j, sj)).
  { intros E. rewrite E in Hb. exact (ranked_before_asym _ _ Hb Hb). }
  apply ranking_In in Hi, Hj.
  destruct (In_two_split _ _ _ Hi Hj Hne) as [H | (l1 & l2 & l3 & E)]; [exact H|].
  exfalso. pose proof (ranking_sorted row) as Hs. rewrite E in Hs.
  apply StronglySorted_app_tail in Hs. rewrite Forall_forall in Hs.
  apply (ranked_before_asym _ _ Hb). apply Hs.
  apply in_or_app. right. now left.
Qed.

(** For a title of the catalog, a square matrix and [top_n >= 0], the call
    returns the titles of the first [top_n] entries of the ranking after its
    head. *)
Lemma recommend_movie_nonneg (st : module_state) (movie_name : string) (top_n : Z) :
  is_square st = true ->
  In movie_name (movie_titles st) ->
  (0 <= top_n)%Z ->
  exists index row,
    nth_error (movie_titles st) index = Some movie_name /\
    (forall k, k < index -> nth_error (movie_titles st) k <> Some movie_name) /\
    nth_error (similarity_matrix st) index = Some row /\
    List.length row = List.length (movie_titles st) /\
    recommend_movie st movie_name top_n =
      Returned (map (fun i => nth i (movie_titles st) "")
                  (map fst (firstn (Z.to_nat top_n) (tl (ranking row))))).
Proof.
  intros Hsq Hin Hk.
  destruct (recommend_movie_found st movie_name top_n Hin) as (index & Hi & Hleast & E).
  assert (Hlt : index < List.length (movie_titles st))
    by (apply nth_error_Some; congruence).
  destruct (recommend_at_returns st index top_n Hsq Hlt) as (row & r & Hrow & Hlen & Hr & _).
  exists index, row. repeat split; try assumption.
  rewrite E, Hr. f_equal.
  unfold recommend_at, index_at in Hr. rewrite Hrow in Hr. simpl in Hr.
  apply collect_titles_map in Hr. rewrite Hr.
  now rewrite slice_from_one_nonneg.
Qed.

Lemma slice_decompose {A : Type} (l : list A) (lo hi : Z) :
  exists before after, l = before ++ slice l lo hi ++ after.
Proof.
  unfold slice.
  set (a := Z.to_nat (clamp (Z.of_nat (List.length l)) lo)).
  set (b := Z.to_nat (clamp (Z.of_nat (List.length l)) hi
                      - clamp (Z.of_nat (List.length l)) lo)).
  exists (firstn a l), (skipn b (skipn a l)).
  now rewrite (firstn_skipn b (skipn a l)), (firstn_skipn a l).
Qed.

Lemma least_index_unique (titles : list string) (movie_name : string) (i j : nat) :
  nth_error titles i = Some movie_name ->
  (forall k, k < i -> nth_error titles k <> Some movie_name) ->
  nth_error titles j = Some movie_name ->
  (forall k, k < j -> nth_error titles k <> Some movie_name) ->
  i = j.
Proof.
  intros Hi Hli Hj Hlj.
  destruct (Nat.lt_trichotomy i j) as [H | [H | H]]; [|assumption|].
  - exfalso. exact (Hlj i H Hi).
  - exfalso. exact (Hli j H Hj).
Qed.

(** The entries behind a list of recommendations: the slice of the ranking of
    the query row. *)
Lemma recommend_movie_picks (st : module_state) (movie_name : string) (top_n : Z) :
  is_square st = true ->
  In movie_name (movie_titles st) ->
  exists index row,
    nth_error (movie_titles st) index = Some movie_name /\
    (forall k, k < index -> nth_error (movie_titles st) k <> Some movie_name) /\
    nth_error (similarity_matrix st) index = Some row /\
    List.length row = List.length (movie_titles st) /\
    recommend_movie st movie_name top_n =
      Returned (map (fun i => nth i (movie_titles st) "")
                  (map fst (slice (ranking row) 1 (top_n + 1)))).
Proof.
  intros Hsq Hin.
  destruct (recommend_movie_found st movie_name top_n Hin) as (index & Hi & Hleast & E).
  assert (Hlt : index < List.length (movie_titles st))
    by (apply nth_error_Some; congruence).
  destruct (recommend_at_returns st index top_n Hsq Hlt) as (row & r & Hrow & Hlen & Hr & _).
  exists index, row. repeat split; try assumption.
  rewrite E, Hr. f_equal.
  unfold recommend_at, index_at in Hr. rewrite Hrow in Hr. simpl in Hr.
  now apply collect_titles_map in Hr.
Qed.

(** X1.  Whatever the matrix, a call that returns for a title of the catalog
    returns titles of the catalog only; a call for any other title returns
    the message list. *)
Theorem recommend_movie_catalog_titles (st : module_state) (movie_name : string)
        (top_n : Z) (r : list string) :
  recommend_movie st movie_name top_n = Returned r ->
  (In movie_name (movie_titles st) /\ forall t, In t r -> In t (movie_titles st)) \/
  (~ In movie_name (movie_titles st) /\ r = ["Movie not found in database"]).
Proof.
  intros H. destruct (title_in movie_name (movie_titles st)) eqn:Ht.
  - left. apply title_in_spec in Ht. split; [assumption|].
    destruct (recommend_movie_found st movie_name top_n Ht) as (index & _ & _ & E).
    rewrite E in H. intros t. now apply (recommend_at_titles st index top_n).
  - right. split.
    + intros Hin. apply title_in_spec in Hin. congruence.
    + unfold recommend_movie in H. rewrite Ht in H. simpl in H. now inversion H.
Qed.

Lemma recommend_movie_catalog_titles_witness :
  (In "Avatar" (movie_titles three_movies) /\
   forall t, In t ["Alien"; "Titanic"] -> In t (movie_titles three_movies)) \/
  (~ In "Avatar" (movie_titles three_movies) /\
   ["Alien"; "Titanic"] = ["Movie not found in database"]).
Proof.
  apply (recommend_movie_catalog_titles three_movies "Avatar" 2 ["Alien"; "Titanic"]).
  reflexivity.
Defined.

(** X2.  Asking for fewer recommendations gives a prefix of what asking for
    more gives: for [0 <= m <= n] the answer for [m] is the first [m] titles
    of the answer for [n]. *)
Theorem recommend_movie_prefix (st : module_state) (movie_name : string) (m n : Z) :
  is_square st = true ->
  In movie_name (movie_titles st) ->
  (0 <= m <= n)%Z ->
  exists r,
    recommend_movie st movie_name n = Returned r /\
    recommend_movie st movie_name m = Returned (firstn (Z.to_nat m) r).
Proof.
  intros Hsq Hin [Hm Hmn].
  destruct (recommend_movie_nonneg st movie_name n Hsq Hin ltac:(lia))
    as (i & row & Hi & Hli & Hrow & _ & En).
  destruct (recommend_movie_nonneg st movie_name m Hsq Hin Hm)
    as (i' & row' & Hi' & Hli' & Hrow' & _ & Em).
  assert (i' = i) by (eapply least_index_unique; eassumption). subst i'.
  assert (row' = row) by congruence. subst row'.
  eexists. split; [exact En|].
  rewrite Em. f_equal.
  rewrite <- !firstn_map, firstn_firstn.
  f_equal. lia.
Qed.

Lemma recommend_movie_prefix_witness :
  exists r,
    recommend_movie three_movies "Avatar" 2 = Returned r /\
    recommend_movie three_movies "Avatar" 1 = Returned (firstn (Z.to_nat 1) r).
Proof.
  apply (recommend_movie_prefix three_movies "Avatar" 1 2);
    [reflexivity | simpl; auto | lia].
Defined.

(** X3.  The recommendations follow the ranking: they are the titles of
    entries of the query row that are listed by descending score, ties by
    ascending catalog index, and no catalog index is listed twice. *)
Theorem recommend_movie_descending (st : module_state) (movie_name : string)
        (top_n : Z) :
  is_square st = true ->
  In movie_name (movie_titles st) ->
  exists index row picks,
    nth_error (movie_titles st) index = Some movie_name /\
    nth_error (similarity_matrix st) index = Some row /\
    recommend_movie st movie_name top_n =
      Returned (map (fun i => nth i (movie_titles st) "") (map fst picks)) /\
    StronglySorted ranked_before picks /\
    NoDup (map fst picks) /\
    (forall i s, In (i, s) picks -> nth_error row i = Some s).
Proof.
  intros Hsq Hin.
  destruct (recommend_movie_picks st movie_name top_n Hsq Hin)
    as (index & row & Hi & _ & Hrow & _ & E).
  exists index, row, (slice (ranking row) 1 (top_n + 1)).
  destruct (slice_decompose (ranking row) 1 (top_n + 1)) as (l1 & l3 & Hd).
  pose proof (ranking_sorted row) as Hs.
  pose proof (ranking_NoDup_fst row) as Hn.
  repeat split; try assumption.
  - rewrite Hd in Hs. apply StronglySorted_app in Hs. destruct Hs as [_ Hs].
    now apply StronglySorted_app in Hs.
  - rewrite Hd, !map_app in Hn. apply NoDup_app_remove_l in Hn.
    now apply NoDup_app_remove_r in Hn.
  - intros i s H. apply ranking_In. rewrite Hd.
    apply in_or_app. right. apply in_or_app. now left.
Qed.

Lemma recommend_movie_descending_witness :
  exists index row picks,
    nth_error (movie_titles three_movies) index = Some "Titanic" /\
    nth_error (similarity_matrix three_movies) index = Some row /\
    recommend_movie three_movies "Titanic" 5 =
      Returned (map (fun i => nth i (movie_titles three_movies) "") (map fst picks)) /\
    StronglySorted ranked_before picks /\
    NoDup (map fst picks) /\
    (forall i s, In (i, s) picks -> nth_error row i = Some s).
Proof.
  apply (recommend_movie_descending three_movies "Titanic" 5);
    [reflexivity | simpl; auto].
Defined.

(** X4.  In a catalog whose titles are pairwise distinct no title is
    recommended twice. *)
Theorem recommend_movie_no_repeat (st : module_state) (movie_name : string)
        (top_n : Z) (r : list string) :
  is_square st = true ->
  NoDup (movie_titles st) ->
  In movie_name (movie_titles st) ->
  recommend_movie st movie_name top_n = Returned r ->
  NoDup r.
Proof.
  intros Hsq Hnd Hin Hr.
  destruct (recommend_movie_picks st movie_name top_n Hsq Hin)
    as (index & row & _ & _ & _ & Hlen & E).
  rewrite E in Hr. inversion Hr; subst r. clear Hr.
  destruct (slice_decompose (ranking row) 1 (top_n + 1)) as (l1 & l3 & Hd).
  apply NoDup_map_nth; [assumption| |].
  - pose proof (ranking_NoDup_fst row) as Hn.
    rewrite Hd, !map_app in Hn. apply NoDup_app_remove_l in Hn.
    now apply NoDup_app_remove_r in Hn.
  - apply Forall_forall. intros i Hi. apply in_map_iff in Hi.
    destruct Hi as ([i' s] & <- & Hp). simpl.
    assert (Hr : In (i', s) (ranking row)).
    { rewrite Hd. apply in_or_app. right. apply in_or_app. now left. }
    apply ranking_In in Hr. rewrite <- Hlen. apply nth_error_Some. congruence.
Qed.

Lemma recommend_movie_no_repeat_witness : NoDup ["Alien"; "Titanic"].
Proof.
  apply (recommend_movie_no_repeat three_movies "Avatar" 2 ["Alien"; "Titanic"]);
    try reflexivity.
  - repeat constructor; simpl; intuition discriminate.
  - simpl; auto.
Defined.

(** X5.  With [top_n >= N - 1] the call lists the whole catalog except one
    movie: the one ranked first in the query row.  Together with the title of
    that movie the result is a rearrangement of the title column. *)
Theorem recommend_movie_all_but_first (st : module_state) (movie_name : string)
        (top_n : Z) :
  is_square st = true ->
  In movie_name (movie_titles st) ->
  (Z.of_nat (List.length (movie_titles st)) - 1 <= top_n)%Z ->
  exists index row best score rest first r,
    nth_error (movie_titles st) index = Some movie_name /\
    nth_error (similarity_matrix st) index = Some row /\
    ranking row = (best, score) :: rest /\
    nth_error (movie_titles st) best = Some first /\
    recommend_movie st movie_name top_n = Returned r /\
    Permutation (first :: r) (movie_titles st).
Proof.
  intros Hsq Hin Hn.
  assert (Hpos : 0 < List.length (movie_titles st)).
  { destruct (movie_titles st); [destruct Hin | simpl; lia]. }
  destruct (recommend_movie_nonneg st movie_name top_n Hsq Hin ltac:(lia))
    as (index & row & Hi & _ & Hrow & Hlen & E).
  pose proof (ranking_length row) as HL.
  pose proof (ranking_perm row) as HP.
  assert (Hall : forall p, In p (ranking row) -> nth_error row (fst p) = Some (snd p)).
  { intros [a b] Ha. now apply ranking_In. }
  destruct (ranking row) as [|[best score] rest] eqn:Hr; [simpl in HL; lia|].
  assert (Hb : best < List.length (movie_titles st)).
  { rewrite <- Hlen. apply nth_error_Some.
    pose proof (Hall (best, score) (or_introl eq_refl)) as Hbs.
    simpl in Hbs. congruence. }
  exists index, row, best, score, rest, (nth best (movie_titles st) "").
  eexists. repeat split; try eassumption.
  - now apply nth_error_nth'.
  - simpl tl. rewrite firstn_all2 by (simpl in HL; lia).
    change (nth best (movie_titles st) "" ::
            map (fun i => nth i (movie_titles st) "") (map fst rest))
      with (map (fun i => nth i (movie_titles st) "") (map fst ((best, score) :: rest))).
    rewrite HP. unfold enumerate. rewrite enumerate_from_fst, Hlen.
    rewrite map_nth_seq. reflexivity.
Qed.

Lemma recommend_movie_all_but_first_witness :
  exists index row best score rest first r,
    nth_error (movie_titles twin_signatures) index = Some "Aliens" /\
    nth_error (similarity_matrix twin_signatures) index = Some row /\
    ranking row = (best, score) :: rest /\
    nth_error (movie_titles twin_signatures) best = Some first /\
    recommend_movie twin_signatures "Aliens" 5 = Returned r /\
    Permutation (first :: r) (movie_titles twin_signatures).
Proof.
  apply (recommend_movie_all_but_first twin_signatures "Aliens" 5);
    [reflexivity | simpl; auto | simpl; lia].
Defined.

(** X6.  The entry dropped from the ranking is its head, not the query item:
    when some other entry of the query row has a larger score, or an equal
    score and a smaller catalog index, a call with [top_n >= N - 1] returns
    the query title among its recommendations. *)
Theorem recommend_movie_outranked_query (st : module_state) (movie_name : string)
        (top_n : Z) (index j : nat) (row : list Q) (self s : Q) :
  is_square st = true ->
  nth_error (movie_titles st) index = Some movie_name ->
  (forall k, k < index -> nth_error (movie_titles st) k <> Some movie_name) ->
  nth_error (similarity_matrix st) index = Some row ->
  nth_error row index = Some self ->
  nth_error row j = Some s ->
  (self < s)%Q \/ ((s == self)%Q /\ j < index) ->
  (Z.of_nat (List.length (movie_titles st)) - 1 <= top_n)%Z ->
  exists r,
    recommend_movie st movie_name top_n = Returned r /\ In movie_name r.
Proof.
  intros Hsq Hi Hleast Hrow Hself Hj Hord Hn.
  assert (Hin : In movie_name (movie_titles st)) by (eapply nth_error_In; eassumption).
  assert (Hpos : 0 < List.length (movie_titles st)).
  { destruct (movie_titles st); [destruct Hin | simpl; lia]. }
  destruct (recommend_movie_nonneg st movie_name top_n Hsq Hin ltac:(lia))
    as (i' & row' & Hi' & Hleast' & Hrow' & Hlen & E).
  assert (i' = index) by (eapply least_index_unique; eassumption). subst i'.
  assert (row' = row) by congruence. subst row'.
  eexists. split; [exact E|].
  destruct (ranking_precedes row j index s self Hj Hself Hord) as (l1 & l2 & l3 & Hr).
  assert (Htl : In (index, self) (tl (ranking row))).
  { rewrite Hr. destruct l1 as [|x l1]; simpl.
    - apply in_or_app. right. now left.
    - apply in_or_app. right. right. apply in_or_app. right. now left. }
  rewrite firstn_all2.
  - apply in_map_iff. exists index. split; [now apply nth_error_nth|].
    apply in_map_iff. exists (index, self). split; [reflexivity | assumption].
  - pose proof (ranking_length row) as HL.
    destruct (ranking row); simpl in *; lia.
Qed.

Lemma recommend_movie_outranked_query_witness :
  exists r,
    recommend_movie twin_signatures "Aliens" 1 = Returned r /\ In "Aliens" r.
Proof.
  apply (recommend_movie_outranked_query twin_signatures "Aliens" 1 1 0
           [1; 1]%Q 1%Q 1%Q);
    try reflexivity.
  - intros [|k] Hk; [simpl; discriminate | lia].
  - right. split; [reflexivity | lia].
Defined.

(** * More on the signature builder *)

Lemma join_raises (sep : string) (items : list pyval) (e : exn) :
  join sep items = Raised e ->
  e = TypeError /\ exists v, In v items /\ forall s, v <> PyStr s.
Proof.
  induction items as [|v items IH]; [discriminate|].
  intros H.
  assert (Hcase : (exists s, v = PyStr s) \/ forall s, v <> PyStr s).
  { destruct v; try (right; intros s' E; discriminate E). left. now eexists. }
  destruct Hcase as [[s ->] | Hv].
  - destruct items as [|w items]; [discriminate|].
    change (join sep (PyStr s :: w :: items))
      with (t <- join sep (w :: items) ;; Returned (s ++ sep ++ t)%string) in H.
    destruct (join sep (w :: items)) as [t|e'] eqn:E; [discriminate|].
    simpl in H. inversion H; subst e'.
    destruct (IH eq_refl) as (He & u & Hu & Hnot).
    split; [assumption|]. exists u. split; [now right | assumption].
  - assert (E : join sep (v :: items) = Raised TypeError).
    { destruct v; try reflexivity. exfalso. now apply (Hv s). }
    rewrite E in H. inversion H. split; [reflexivity|].
    exists v. split; [now left | assumption].
Qed.

Lemma join_non_string (sep : string) (items : list pyval) (v : pyval) :
  In v items -> (forall s, v <> PyStr s) -> join sep items = Raised TypeError.
Proof.
  induction items as [|w items IH]; intros Hin Hv; [destruct Hin|].
  assert (Hcase : (exists s, w = PyStr s) \/ forall s, w <> PyStr s).
  { destruct w; try (right; intros s' E; discriminate E). left. now eexists. }
  destruct Hcase as [[s ->] | Hw].
  - destruct Hin as [E | Hin]; [exfalso; now apply (Hv s)|].
    destruct items as [|u items]; [destruct Hin|].
    change (join sep (PyStr s :: u :: items))
      with (t <- join sep (u :: items) ;; Returned (s ++ sep ++ t)%string).
    now rewrite (IH Hin Hv).
  - destruct w; try reflexivity. exfalso. now apply (Hw s).
Qed.

Lemma append_names_all (people collected acc : list pyval) :
  Forall2 (fun v name => getitem v "name" = Returned name) people collected ->
  append_names people acc = (acc ++ collected, Returned tt).
Proof.
  intros HF. revert acc.
  induction HF as [|v name people collected Hv _ IH]; intros acc; simpl.
  - now rewrite app_nil_r.
  - rewrite Hv, IH, <- app_assoc. reflexivity.
Qed.

Lemma append_names_origin (people acc : list pyval) (v : pyval) :
  In v (fst (append_names people acc)) ->
  In v acc \/ exists person, In person people /\ getitem person "name" = Returned v.
Proof.
  revert acc; induction people as [|p people IH]; intros acc; simpl.
  - now left.
  - destruct (getitem p "name") as [name|e] eqn:E; simpl; [|now left].
    intros H. destruct (IH _ H) as [Hacc | (person & Hp & Hn)].
    + apply in_app_or in Hacc. destruct Hacc as [Hacc | [<- | []]].
      * now left.
      * right. exists p. split; [now left | assumption].
    + right. exists person. split; [now right | assumption].
Qed.

Lemma append_names_prefix (people acc : list pyval) :
  exists more, fst (append_names people acc) = acc ++ more.
Proof.
  revert acc; induction people as [|p people IH]; intros acc; simpl.
  - exists []. now rewrite app_nil_r.
  - destruct (getitem p "name") as [name|e]; simpl.
    + destruct (IH (acc ++ [name])) as [more E]. exists (name :: more).
      rewrite E, <- app_assoc. reflexivity.
    + exists []. now rewrite app_nil_r.
Qed.

Lemma find_director_found (people : list pyval) (v : pyval) :
  find_director people = Returned (Some v) ->
  exists pre person post,
    people = pre ++ person :: post /\
    Forall (fun p => exists j, getitem p "job" = Returned j /\
                               eq_str j "Director" = false) pre /\
    getitem person "job" = Returned (PyStr "Director") /\
    getitem person "name" = Returned v.
Proof.
  induction people as [|p people IH]; simpl; [discriminate|].
  destruct (getitem p "job") as [job|e] eqn:Hjob; simpl; [|discriminate].
  destruct (eq_str job "Director") eqn:Hd.
  - destruct (getitem p "name") as [name|e] eqn:Hname; simpl; [|discriminate].
    intros H. inversion H; subst v.
    exists [], p, people. repeat split; [constructor| |assumption].
    destruct job; try discriminate Hd. simpl in Hd.
    apply String.eqb_eq in Hd. now subst.
  - intros H. destruct (IH H) as (pre & person & post & -> & Hpre & Hj & Hn).
    exists (p :: pre), person, post. repeat split; try assumption.
    constructor; [|assumption]. now exists job.
Qed.

Lemma find_director_stops (pre post : list pyval) (bad : pyval) :
  Forall (fun p => exists j, getitem p "job" = Returned j /\
                             eq_str j "Director" = false) pre ->
  (exists e, getitem bad "job" = Raised e) \/
  (getitem bad "job" = Returned (PyStr "Director") /\
   exists e, getitem bad "name" = Raised e) ->
  exists e, find_director (pre ++ bad :: post) = Raised e.
Proof.
  induction 1 as [|p pre (j & Hj & Hd) _ IH]; intros Hbad; simpl.
  - destruct Hbad as [[e He] | [Hj [e He]]].
    + rewrite He. now exists e.
    + rewrite Hj. simpl. rewrite He. now exists e.
  - rewrite Hj. simpl. rewrite Hd. now apply IH.
Qed.

Section SignatureBuilderMore.

Variable literal_eval : string -> outcome pyval.

Lemma get_top_actors_of_names (cast : string) (parsed : pyval)
      (records : list pyval) (names : list string) :
  literal_eval cast = Returned parsed ->
  parsed = PyList records \/ parsed = PyTuple records ->
  Forall2 (fun v name => getitem v "name" = Returned (PyStr name))
    (firstn 3 records) names ->
  get_top_actors literal_eval cast = Returned (String.concat " " names).
Proof.
  intros Hparse Hshape Hnames.
  assert (HF : Forall2 (fun v name => getitem v "name" = Returned name)
                 (firstn 3 records) (map PyStr names)).
  { induction Hnames; simpl; constructor; auto. }
  unfold get_top_actors, top_actors_try. rewrite Hparse.
  destruct Hshape as [-> | ->]; unfold slice3, iter, bind;
    rewrite (append_names_all _ _ [] HF); simpl fst; apply join_strings.
Qed.

Lemma get_director_of_records (crew : string) (people : list pyval)
      (records : list (string * string)) :
  literal_eval crew = Returned (PyList people) ->
  Forall2 crew_record people records ->
  get_director literal_eval crew = PyStr (first_director records).
Proof.
  intros Hparse Hrec. unfold get_director, first_director.
  rewrite Hparse. simpl. rewrite (find_director_records _ _ Hrec).
  destruct (find _ records); reflexivity.
Qed.

(** X7.  On a cast that parses to a list or a tuple whose first three
    entries are dictionaries with a string under "name", [get_top_actors]
    returns those names joined by single spaces: at most three names, and the
    entries after the third are never read. *)
Theorem get_top_actors_names (cast : string) (parsed : pyval)
        (records : list pyval) (names : list string) :
  literal_eval cast = Returned parsed ->
  parsed = PyList records \/ parsed = PyTuple records ->
  Forall2 (fun v name => getitem v "name" = Returned (PyStr name))
    (firstn 3 records) names ->
  get_top_actors literal_eval cast = Returned (String.concat " " names) /\
  List.length names <= 3 /\
  List.length names = Nat.min 3 (List.length records).
Proof.
  intros Hparse Hshape Hnames.
  split; [eapply get_top_actors_of_names; eassumption|].
  apply Forall2_length in Hnames. rewrite length_firstn in Hnames. lia.
Qed.

(** X8.  The bare [except] covers the parsing and the loop but not the join:
    when an entry among the first three is reached and holds a value that is
    not a string under "name", [get_top_actors] raises [TypeError]. *)
Theorem get_top_actors_non_string_name (cast : string) (records pre post : list pyval)
        (person v : pyval) :
  literal_eval cast = Returned (PyList records) ->
  firstn 3 records = pre ++ person :: post ->
  Forall (fun p => exists name, getitem p "name" = Returned name) pre ->
  getitem person "name" = Returned v ->
  (forall s, v <> PyStr s) ->
  get_top_actors literal_eval cast = Raised TypeError.
Proof.
  intros Hparse Hsplit Hpre Hperson Hv.
  unfold get_top_actors, top_actors_try. rewrite Hparse.
  unfold slice3, iter, bind. rewrite Hsplit.
  apply (join_non_string " " _ v); [|assumption].
  clear Hsplit Hparse. generalize (@nil pyval) as acc.
  induction Hpre as [|p pre [name Hp] _ IH]; intros acc; simpl.
  - rewrite Hperson.
    destruct (append_names_prefix post (acc ++ [v])) as [more ->].
    apply in_or_app. left. apply in_or_app. right. now left.
  - rewrite Hp. apply IH.
Qed.

(** X9.  [get_top_actors] raises nothing but [TypeError], and only after the
    cast was parsed: some entry visited by the loop then holds a value that
    is not a string under "name". *)
Theorem get_top_actors_raises_only (cast : string) (e : exn) :
  get_top_actors literal_eval cast = Raised e ->
  e = TypeError /\
  exists parsed top people person v,
    literal_eval cast = Returned parsed /\
    slice3 parsed = Returned top /\
    iter top = Returned people /\
    In person people /\
    getitem person "name" = Returned v /\
    forall s, v <> PyStr s.
Proof.
  unfold get_top_actors, top_actors_try. intros H.
  apply join_raises in H. destruct H as (He & v & Hin & Hv).
  split; [assumption|].
  destruct (literal_eval cast) as [parsed|]; [|destruct Hin].
  destruct (slice3 parsed) as [top|] eqn:Hs; simpl in Hin; [|destruct Hin].
  destruct (iter top) as [people|] eqn:Hi; simpl in Hin; [|destruct Hin].
  apply append_names_origin in Hin. destruct Hin as [[] | (person & Hp & Hn)].
  exists parsed, top, people, person, v. repeat split; assumption.
Qed.

(** X10.  What [get_director] returns is the empty string or the value under
    "name" of the first entry of the parsed crew whose job is "Director";
    every entry before it has a job that is not "Director". *)
Theorem get_director_origin (crew : string) (v : pyval) :
  get_director literal_eval crew = v ->
  v = PyStr "" \/
  exists parsed pre person post,
    literal_eval crew = Returned parsed /\
    iter parsed = Returned (pre ++ person :: post) /\
    Forall (fun p => exists j, getitem p "job" = Returned j /\
                               eq_str j "Director" = false) pre /\
    getitem person "job" = Returned (PyStr "Director") /\
    getitem person "name" = Returned v.
Proof.
  unfold get_director. intros H.
  destruct (literal_eval crew) as [parsed|]; simpl in H; [|now left].
  destruct (iter parsed) as [people|] eqn:Hi; simpl in H; [|now left].
  destruct (find_director people) as [[name|]|] eqn:Hf; try (now left).
  subst name. right.
  destruct (find_director_found people v Hf) as (pre & person & post & -> & H1 & H2 & H3).
  exists parsed, pre, person, post. repeat split; assumption.
Qed.

(** X11.  The scan of [get_director] ends at the first entry that raises: if,
    before any director is found, an entry has no "job" (or is no
    dictionary), or the first director entry has no "name", the result is
    the empty string, whatever directors the rest of the crew holds. *)
Theorem get_director_stops_at_bad_entry (crew : string) (parsed : pyval)
        (pre post : list pyval) (bad : pyval) :
  literal_eval crew = Returned parsed ->
  iter parsed = Returned (pre ++ bad :: post) ->
  Forall (fun p => exists j, getitem p "job" = Returned j /\
                             eq_str j "Director" = false) pre ->
  (exists e, getitem bad "job" = Raised e) \/
  (getitem bad "job" = Returned (PyStr "Director") /\
   exists e, getitem bad "name" = Raised e) ->
  get_director literal_eval crew = PyStr "".
Proof.
  intros Hparse Hiter Hpre Hbad. unfold get_director.
  rewrite Hparse. simpl. rewrite Hiter. simpl.
  destruct (find_director_stops pre post bad Hpre Hbad) as [e ->].
  reflexivity.
Qed.

(** X12.  For a row whose cast and crew are well formed the signature is the
    overview, a space, the names of the first three cast entries separated by
    single spaces, a space, and the name of the first director (empty when
    the crew has none). *)
Theorem signature_well_formed (overview cast crew : string)
        (actors people : list pyval) (names : list string)
        (records : list (string * string)) :
  literal_eval cast = Returned (PyList actors) ->
  Forall2 (fun v name => getitem v "name" = Returned (PyStr name))
    (firstn 3 actors) names ->
  literal_eval crew = Returned (PyList people) ->
  Forall2 crew_record people records ->
  signature literal_eval overview cast crew =
    Returned (Some (overview ++ " " ++ String.concat " " names ++ " "
                    ++ first_director records)%string).
Proof.
  intros Hcast Hnames Hcrew Hrec. unfold signature, combined_text.
  rewrite (get_top_actors_of_names cast _ actors names Hcast (or_introl eq_refl) Hnames).
  rewrite (get_director_of_records crew people records Hcrew Hrec).
  simpl. now rewrite !string_app_assoc.
Qed.

End SignatureBuilderMore.

Lemma get_top_actors_names_witness :
  get_top_actors
    (fun _ => Returned (PyTuple [PyDict [(PyStr "name", PyStr "A")];
                                 PyDict [(PyStr "name", PyStr "B")];
                                 PyDict [(PyStr "id", PyInt 3); (PyStr "name", PyStr "C")];
                                 PyInt 4]))
    "cast" = Returned (String.concat " " ["A"; "B"; "C"]) /\
  List.length ["A"; "B"; "C"] <= 3 /\
  List.length ["A"; "B"; "C"] = Nat.min 3 4.
Proof.
  apply (get_top_actors_names _ "cast"
           (PyTuple [PyDict [(PyStr "name", PyStr "A")];
                     PyDict [(PyStr "name", PyStr "B")];
                     PyDict [(PyStr "id", PyInt 3); (PyStr "name", PyStr "C")];
                     PyInt 4])
           [PyDict [(PyStr "name", PyStr "A")];
            PyDict [(PyStr "name", PyStr "B")];
            PyDict [(PyStr "id", PyInt 3); (PyStr "name", PyStr "C")];
            PyInt 4]
           ["A"; "B"; "C"]);
    [reflexivity | now right | repeat constructor].
Defined.

Lemma get_top_actors_non_string_name_witness :
  get_top_actors
    (fun _ => Returned (PyList [PyDict [(PyStr "name", PyStr "A")];
                                PyDict [(PyStr "name", PyInt 5)]]))
    "cast" = Raised TypeError.
Proof.
  apply (get_top_actors_non_string_name _ "cast"
           [PyDict [(PyStr "name", PyStr "A")]; PyDict [(PyStr "name", PyInt 5)]]
           [PyDict [(PyStr "name", PyStr "A")]] []
           (PyDict [(PyStr "name", PyInt 5)]) (PyInt 5));
    try reflexivity.
  - constructor; [|constructor]. now eexists.
  - intros s E. discriminate E.
Defined.

Lemma get_top_actors_raises_only_witness :
  TypeError = TypeError /\
  exists parsed top people person v,
    (fun _ : string => Returned (PyList [PyDict [(PyStr "name", PyNone)]])) "cast"
      = Returned parsed /\
    slice3 parsed = Returned top /\
    iter top = Returned people /\
    In person people /\
    getitem person "name" = Returned v /\
    forall s, v <> PyStr s.
Proof.
  apply (get_top_actors_raises_only
           (fun _ => Returned (PyList [PyDict [(PyStr "name", PyNone)]])) "cast").
  reflexivity.
Defined.

Lemma get_director_origin_witness :
  PyStr "James Cameron" = PyStr "" \/
  exists parsed pre person post,
    sample_literal_eval sample_crew = Returned parsed /\
    iter parsed = Returned (pre ++ person :: post) /\
    Forall (fun p => exists j, getitem p "job" = Returned j /\
                               eq_str j "Director" = false) pre /\
    getitem person "job" = Returned (PyStr "Director") /\
    getitem person "name" = Returned (PyStr "James Cameron").
Proof.
  apply (get_director_origin sample_literal_eval sample_crew). reflexivity.
Defined.

Lemma get_director_stops_at_bad_entry_witness :
  get_director
    (fun _ => Returned (PyList [PyDict [(PyStr "job", PyStr "Editor");
                                        (PyStr "name", PyStr "Stephen Rivkin")];
                                PyDict [(PyStr "name", PyStr "Jon Landau")];
                                PyDict [(PyStr "job", PyStr "Director");
                                        (PyStr "name", PyStr "James Cameron")]]))
    "crew" = PyStr "".
Proof.
  apply (get_director_stops_at_bad_entry _ "crew"
           (PyList [PyDict [(PyStr "job", PyStr "Editor");
                            (PyStr "name", PyStr "Stephen Rivkin")];
                    PyDict [(PyStr "name", PyStr "Jon Landau")];
                    PyDict [(PyStr "job", PyStr "Director");
                            (PyStr "name", PyStr "James Cameron")]])
           [PyDict [(PyStr "job", PyStr "Editor");
                    (PyStr "name", PyStr "Stephen Rivkin")]]
           [PyDict [(PyStr "job", PyStr "Director");
                    (PyStr "name", PyStr "James Cameron")]]
           (PyDict [(PyStr "name", PyStr "Jon Landau")]));
    try reflexivity.
  - constructor; [|constructor]. eexists. split; reflexivity.
  - left. now eexists.
Defined.

Lemma signature_well_formed_witness :
  signature
    (fun s => if String.eqb s "cast"
              then Returned (PyList [PyDict [(PyStr "name", PyStr "Sam Worthington")];
                                     PyDict [(PyStr "name", PyStr "Zoe Saldana")]])
              else Returned (PyList [PyDict [(PyStr "job", PyStr "Director");
                                             (PyStr "name", PyStr "James Cameron")]]))
    "A marine on an alien planet" "cast" "crew"
  = Returned (Some ("A marine on an alien planet" ++ " "
                    ++ String.concat " " ["Sam Worthington"; "Zoe Saldana"] ++ " "
                    ++ first_director [("Director", "James Cameron")])%string).
Proof.
  apply (signature_well_formed _ "A marine on an alien planet" "cast" "crew"
           [PyDict [(PyStr "name", PyStr "Sam Worthington")];
            PyDict [(PyStr "name", PyStr "Zoe Saldana")]]
           [PyDict [(PyStr "job", PyStr "Director");
                    (PyStr "name", PyStr "James Cameron")]]);
    try reflexivity; repeat constructor.
Defined.

(** * Table preparation *)

Lemma has_column_spec (label : string) (labels : list string) :
  has_column label labels = true <-> In label labels.
Proof.
  unfold has_column. rewrite existsb_exists. split.
  - intros (l & Hl & E). apply String.eqb_eq in E. now subst.
  - intros H. exists label. split; [assumption | apply String.eqb_refl].
Qed.

Lemma has_column_false (label : string) (labels : list string) :
  has_column label labels = false <-> ~ In label labels.
Proof.
  rewrite <- has_column_spec. destruct (has_column label labels); split;
    congruence.
Qed.

Lemma title_col_cases (labels : list string) :
  (In "title" labels /\ title_col labels = Ready "title") \/
  (~ In "title" labels /\ In "original_title" labels /\
   title_col labels = Ready "original_title") \/
  (~ In "title" labels /\ ~ In "original_title" labels /\
   In "movie_title" labels /\ title_col labels = Ready "movie_title") \/
  (~ In "title" labels /\ ~ In "original_title" labels /\
   ~ In "movie_title" labels /\
   title_col labels = Aborted (NoTitleColumn "No movie title column found!")).
Proof.
  unfold title_col.
  destruct (has_column "title" labels) eqn:H1.
  { left. split; [now apply has_column_spec | reflexivity]. }
  apply has_column_false in H1.
  destruct (has_column "original_title" labels) eqn:H2.
  { right; left. repeat split; [assumption | now apply has_column_spec]. }
  apply has_column_false in H2.
  destruct (has_column "movie_title" labels) eqn:H3.
  { right; right; left. repeat split; try assumption. now apply has_column_spec. }
  apply has_column_false in H3.
  right; right; right. repeat split; assumption.
Qed.

Section FrameFacts.

Context {C : Type}.

Lemma rename_columns_labels (old new : string) (df : frame C) :
  columns (rename_columns old new df)
  = map (fun l => if String.eqb l old then new else l) (columns df).
Proof.
  unfold columns, rename_columns. rewrite !map_map. reflexivity.
Qed.

Lemma rename_columns_data (old new : string) (df : frame C) :
  map snd (rename_columns old new df) = map snd df.
Proof.
  unfold rename_columns. rewrite map_map. reflexivity.
Qed.

Lemma rename_columns_same (label : string) (df : frame C) :
  rename_columns label label df = df.
Proof.
  unfold rename_columns. induction df as [|[l col] df IH]; [reflexivity|].
  simpl. rewrite IH. destruct (String.eqb_spec l label); now subst.
Qed.

Lemma rename_columns_In (old new label : string) (df : frame C) :
  label <> old -> label <> new ->
  (In label (columns (rename_columns old new df)) <-> In label (columns df)).
Proof.
  intros Ho Hn. rewrite rename_columns_labels, in_map_iff. split.
  - intros (l & E & Hl). destruct (String.eqb_spec l old); congruence.
  - intros H. exists label. split; [|assumption].
    destruct (String.eqb_spec label old); congruence.
Qed.

Lemma rename_columns_new (old new : string) (df : frame C) :
  In old (columns df) -> In new (columns (rename_columns old new df)).
Proof.
  intros H. rewrite rename_columns_labels. apply in_map_iff.
  exists old. split; [now rewrite String.eqb_refl | assumption].
Qed.

Lemma rename_columns_NoDup (old new : string) (df : frame C) :
  ~ In new (columns df) -> NoDup (columns df) ->
  NoDup (columns (rename_columns old new df)).
Proof.
  intros Hnew Hnd. rewrite rename_columns_labels.
  apply NoDup_map_NoDup_ForallPairs; [|assumption].
  intros a b Ha Hb E.
  destruct (String.eqb_spec a old), (String.eqb_spec b old); subst; congruence.
Qed.

Lemma filter_label_unique (label : string) (df : frame C) :
  NoDup (columns df) -> In label (columns df) ->
  columns (filter (fun column => String.eqb (fst column) label) df) = [label].
Proof.
  unfold columns. induction df as [|[l col] df IH]; simpl; intros Hnd Hin;
    [destruct Hin|].
  inversion Hnd as [|? ? Hfresh Hnd']; subst.
  destruct (String.eqb_spec l label) as [-> | Hne]; simpl.
  - f_equal. clear IH Hin Hnd Hnd'.
    induction df as [|[l' col'] df IH]; [reflexivity|].
    simpl in *. destruct (String.eqb_spec l' label) as [-> | Hne].
    + exfalso. apply Hfresh. now left.
    + apply IH. intros H. apply Hfresh. now right.
  - apply IH; [assumption|]. destruct Hin; [congruence | assumption].
Qed.

End FrameFacts.

(** X14.  The title column is chosen by priority: "title" when it is present,
    otherwise "original_title", otherwise "movie_title"; the chosen label is
    a column of the table, and the script stops with its own exception
    exactly when none of the three is present. *)
Theorem title_col_priority (labels : list string) :
  (forall label, title_col labels = Ready label ->
     In label labels /\
     (label = "title" \/
      (label = "original_title" /\ ~ In "title" labels) \/
      (label = "movie_title" /\ ~ In "title" labels /\
       ~ In "original_title" labels))) /\
  (forall e, title_col labels = Aborted e ->
     e = NoTitleColumn "No movie title column found!") /\
  ((exists e, title_col labels = Aborted e) <->
   ~ In "title" labels /\ ~ In "original_title" labels /\
   ~ In "movie_title" labels).
Proof.
  pose proof (title_col_cases labels) as Hcases.
  split; [|split; [|split]].
  - intros label Hl.
    destruct Hcases
      as [(H1 & E) | [(H1 & H2 & E) | [(H1 & H2 & H3 & E) | (H1 & H2 & H3 & E)]]];
      rewrite E in Hl; inversion Hl; subst label; tauto.
  - intros e He.
    destruct Hcases
      as [(H1 & E) | [(H1 & H2 & E) | [(H1 & H2 & H3 & E) | (H1 & H2 & H3 & E)]]];
      rewrite E in He; inversion He; reflexivity.
  - intros [e He].
    destruct Hcases
      as [(H1 & E) | [(H1 & H2 & E) | [(H1 & H2 & H3 & E) | (H1 & H2 & H3 & E)]]];
      rewrite E in He; try discriminate He; tauto.
  - intros (N1 & N2 & N3).
    destruct Hcases
      as [(H1 & E) | [(H1 & H2 & E) | [(H1 & H2 & H3 & E) | (H1 & H2 & H3 & E)]]];
      try contradiction.
    eexists. exact E.
Qed.

Lemma title_col_priority_witness :
  In "original_title" (columns sample_frame) /\
  ("original_title" = "title" \/
   ("original_title" = "original_title" /\ ~ In "title" (columns sample_frame)) \/
   ("original_title" = "movie_title" /\ ~ In "title" (columns sample_frame) /\
    ~ In "original_title" (columns sample_frame))).
Proof.
  apply (proj1 (title_col_priority (columns sample_frame)) "original_title").
  reflexivity.
Defined.

(** X15.  When section 3 of the script goes through, the table has a column
    labelled "title"; the data of the columns and their order are untouched;
    a table that already has a "title" column is left as it is; and distinct
    labels stay distinct. *)
Theorem fix_title_column_keeps_table {C : Type} (df renamed : frame C) :
  fix_title_column df = Ready renamed ->
  In "title" (columns renamed) /\
  map snd renamed = map snd df /\
  (In "title" (columns df) -> renamed = df) /\
  (NoDup (columns df) -> NoDup (columns renamed)).
Proof.
  unfold fix_title_column. intros H.
  destruct (title_col_cases (columns df))
    as [(H1 & E) | [(H1 & H2 & E) | [(H1 & H2 & H3 & E) | (H1 & H2 & H3 & E)]]];
    rewrite E in H; inversion H; subst renamed; clear H.
  - rewrite rename_columns_same. repeat split; auto.
  - repeat split.
    + now apply rename_columns_new.
    + apply rename_columns_data.
    + intros Ht. contradiction.
    + now apply rename_columns_NoDup.
  - repeat split.
    + now apply rename_columns_new.
    + apply rename_columns_data.
    + intros Ht. contradiction.
    + now apply rename_columns_NoDup.
Qed.

Lemma fix_title_column_keeps_table_witness :
  In "title" (columns (rename_columns "original_title" "title" sample_frame)) /\
  map snd (rename_columns "original_title" "title" sample_frame)
    = map snd sample_frame /\
  (In "title" (columns sample_frame) ->
   rename_columns "original_title" "title" sample_frame = sample_frame) /\
  (NoDup (columns sample_frame) ->
   NoDup (columns (rename_columns "original_title" "title" sample_frame))).
Proof.
  apply (fix_title_column_keeps_table sample_frame). reflexivity.
Defined.

(** X16.  Which tables the preparation accepts.  Without any of the three
    title labels the script stops with its own exception, whatever else is
    missing; with one of them but without "overview", "cast" or "crew" the
    column selection raises [KeyError]; otherwise the preparation goes
    through, and on a table with distinct labels the result has exactly the
    columns "title", "overview", "cast" and "crew", in this order. *)
Theorem prepare_table_outcome {C : Type} (df : frame C) :
  let labels := columns df in
  let has_title :=
    In "title" labels \/ In "original_title" labels \/ In "movie_title" labels in
  let has_text :=
    In "overview" labels /\ In "cast" labels /\ In "crew" labels in
  (~ has_title ->
   prepare_table df = Aborted (NoTitleColumn "No movie title column found!")) /\
  (has_title -> ~ has_text -> prepare_table df = Aborted (Uncaught KeyError)) /\
  (has_title -> has_text ->
   exists selected,
     prepare_table df = Ready selected /\
     (NoDup labels -> columns selected = required_columns)).
Proof.
  intros labels has_title has_text. subst labels has_title has_text.
  unfold prepare_table, fix_title_column.
  destruct (title_col_cases (columns df))
    as [(H1 & E) | [(H1 & H2 & E) | [(H1 & H2 & H3 & E) | (H1 & H2 & H3 & E)]]];
    rewrite E.
  4: { split; [intros _; reflexivity|].
       split; intros Ht; exfalso; tauto. }
  all: match goal with
       | |- context [rename_columns ?old "title" ?d] =>
           set (renamed := rename_columns old "title" d);
           assert (Ht : In "title" (columns renamed))
             by (first [ subst renamed; rewrite rename_columns_same; assumption
                       | now apply rename_columns_new ]);
           assert (Hsame : forall l, l = "overview" \/ l = "cast" \/ l = "crew" ->
                                     (In l (columns renamed) <-> In l (columns df)))
             by (intros l Hl; first
                   [ subst renamed; rewrite rename_columns_same; reflexivity
                   | apply rename_columns_In;
                     destruct Hl as [-> | [-> | ->]]; discriminate ]);
           assert (Hnd : NoDup (columns df) -> NoDup (columns renamed))
             by (first [ subst renamed; rewrite rename_columns_same; trivial
                       | now apply rename_columns_NoDup ])
       end.
  all: split; [tauto|].
  all: pose proof (Hsame "overview" (or_introl eq_refl)) as Ho.
  all: pose proof (Hsame "cast" (or_intror (or_introl eq_refl))) as Hc.
  all: pose proof (Hsame "crew" (or_intror (or_intror eq_refl))) as Hw.
  all: unfold select_columns, required_columns; simpl forallb.
  all: destruct (has_column "title" (columns renamed)) eqn:Bt;
         [|apply has_column_false in Bt; contradiction].
  all: destruct (has_column "overview" (columns renamed)) eqn:Bo;
         [apply has_column_spec in Bo | apply has_column_false in Bo].
  all: destruct (has_column "cast" (columns renamed)) eqn:Bc;
         [apply has_column_spec in Bc | apply has_column_false in Bc].
  all: destruct (has_column "crew" (columns renamed)) eqn:Bw;
         [apply has_column_spec in Bw | apply has_column_false in Bw].
  all: simpl andb; cbv iota.
  all: split; [intros _ Hno; try reflexivity; exfalso; apply Hno; tauto|].
  all: intros _ (Xo & Xc & Xw); try (exfalso; tauto).
  all: eexists; split; [reflexivity|].
  all: intros Hlabels; specialize (Hnd Hlabels).
  all: unfold columns; simpl flat_map; rewrite !map_app.
  all: fold (columns (filter (fun column => String.eqb (fst column) "title") renamed)).
  all: fold (columns (filter (fun column => String.eqb (fst column) "overview") renamed)).
  all: fold (columns (filter (fun column => String.eqb (fst column) "cast") renamed)).
  all: fold (columns (filter (fun column => String.eqb (fst column) "crew") renamed)).
  all: rewrite !filter_label_unique by assumption; reflexivity.
Qed.

Lemma prepare_table_outcome_witness :
  exists selected,
    prepare_table sample_frame = Ready selected /\
    (NoDup (columns sample_frame) -> columns selected = required_columns).
Proof.
  apply (proj2 (proj2 (prepare_table_outcome sample_frame))).
  - right; left. simpl. tauto.
  - simpl. tauto.
Defined.

(** A director entry whose name is [None] gives a NaN signature and raises
    nothing; a number in its place raises [TypeError]. *)
Example signature_none_director :
  signature
    (fun s => if String.eqb s "crew"
              then Returned (PyList [PyDict [(PyStr "job", PyStr "Director");
                                             (PyStr "name", PyNone)]])
              else Raised SyntaxError)
    "A ship sinks" "" "crew" = Returned None.
Proof. reflexivity. Qed.

Example signature_number_director :
  signature
    (fun s => if String.eqb s "crew"
              then Returned (PyList [PyDict [(PyStr "job", PyStr "Director");
                                             (PyStr "name", PyInt 5)]])
              else Raised SyntaxError)
    "A ship sinks" "" "crew" = Raised TypeError.
Proof. reflexivity. Qed.

(** * The similarity index *)

Module SimilarityIndex.

Import Reals.

Lemma entry_diagonal {F : Type} (zero one : F) (add mul div : F -> F -> F)
      (sqrt : F -> F) (is_zero : F -> bool) (vectors : list (list F))
      (i : nat) (v : list F) :
  nth_error vectors i = Some v ->
  Cosine.entry
    (Cosine.cosine_similarity F zero one add mul div sqrt is_zero vectors) i i
  = Some (Cosine.dot F zero add mul
            (Cosine.normalize F zero one add mul div sqrt is_zero v)
            (Cosine.normalize F zero one add mul div sqrt is_zero v)).
Proof.
  intros H. unfold Cosine.entry, Cosine.cosine_similarity.
  rewrite nth_error_map, nth_error_map, H. simpl.
  rewrite nth_error_map, nth_error_map, H. reflexivity.
Qed.

(** In float64 a vector of zeros, of either sign, has self dot product 0.0
    and is its own normalization. *)
Lemma f64_dot_zeros (v : list float) :
  Forall (fun x => x = 0%float \/ x = (-0)%float) v -> F64.dot v v = 0%float.
Proof.
  unfold F64.dot, Cosine.dot.
  induction 1 as [|x v Hx _ IH]; [reflexivity|].
  simpl. destruct Hx as [-> | ->].
  - change (PrimFloat.add 0 (PrimFloat.mul 0 0)) with 0%float. exact IH.
  - change (PrimFloat.add 0 (PrimFloat.mul (-0) (-0))) with 0%float. exact IH.
Qed.

Lemma f64_normalize_zeros (v : list float) :
  Forall (fun x => x = 0%float \/ x = (-0)%float) v -> F64.normalize v = v.
Proof.
  intros Hz. unfold F64.normalize, Cosine.normalize.
  fold (F64.dot v v). rewrite (f64_dot_zeros v Hz).
  change (F64.is_zero (PrimFloat.sqrt 0)) with true. cbv iota.
  induction Hz as [|x v Hx _ IH]; [reflexivity|].
  simpl. rewrite IH. destruct Hx as [-> | ->]; reflexivity.
Qed.

Section ExactArithmetic.

Local Open Scope R_scope.

Lemma fold_scale (s : R) (u v : list R) (a : R) :
  s <> 0 ->
  fold_left (fun acc p => acc + fst p * snd p)
    (combine (map (fun x => x / s) u) (map (fun x => x / s) v)) (a / (s * s))
  = fold_left (fun acc p => acc + fst p * snd p) (combine u v) a / (s * s).
Proof.
  intros Hs. revert v a. induction u as [|x u IH]; intros v a; [reflexivity|].
  destruct v as [|y v]; [reflexivity|]. simpl.
  rewrite <- IH. f_equal. field. exact Hs.
Qed.

Lemma exact_dot_scale (s : R) (u v : list R) :
  s <> 0 ->
  Exact.dot (map (fun x => x / s) u) (map (fun x => x / s) v)
  = Exact.dot u v / (s * s).
Proof.
  intros Hs. unfold Exact.dot, Cosine.dot. rewrite <- fold_scale by assumption.
  f_equal. field. exact Hs.
Qed.

Lemma fold_squares (v : list R) (a : R) :
  0 <= a ->
  a <= fold_left (fun acc p => acc + fst p * snd p) (combine v v) a /\
  (fold_left (fun acc p => acc + fst p * snd p) (combine v v) a = a ->
   Forall (fun x => x = 0) v).
Proof.
  revert a. induction v as [|x v IH]; intros a Ha; simpl.
  - split; [apply Rle_refl | constructor].
  - pose proof (Rle_0_sqr x) as Hx. unfold Rsqr in Hx.
    destruct (IH (a + x * x) ltac:(Lra.lra)) as [H1 H2].
    split; [Lra.lra|].
    intros E. assert (Hxx : x * x = 0) by Lra.lra.
    constructor.
    + apply Rmult_integral in Hxx. tauto.
    + apply H2. Lra.lra.
Qed.

Lemma exact_dot_zeros (v : list R) :
  Forall (fun x => x = 0) v -> Exact.dot v v = 0.
Proof.
  unfold Exact.dot, Cosine.dot. induction 1 as [|x v Hx _ IH]; [reflexivity|].
  simpl. subst x. replace (0 + 0 * 0) with 0 by ring. exact IH.
Qed.

Lemma exact_self_zero (v : list R) :
  Forall (fun x => x = 0) v ->
  Exact.dot (Exact.normalize v) (Exact.normalize v) = 0.
Proof.
  intros Hz. unfold Exact.normalize, Cosine.normalize. fold (Exact.dot v v).
  rewrite (exact_dot_zeros v Hz), sqrt_0. unfold Exact.is_zero.
  destruct (Req_dec_T 0 0) as [_|N]; [|now elim N].
  rewrite exact_dot_scale by apply R1_neq_R0.
  rewrite (exact_dot_zeros v Hz). field.
Qed.

Lemma exact_self_one (v : list R) :
  Exists (fun x => x <> 0) v ->
  Exact.dot (Exact.normalize v) (Exact.normalize v) = 1.
Proof.
  intros Hnz. unfold Exact.normalize, Cosine.normalize. fold (Exact.dot v v).
  destruct (fold_squares v 0 (Rle_refl 0)) as [Hge Heq].
  fold (Cosine.dot R 0 Rplus Rmult v v) in Hge, Heq. fold (Exact.dot v v) in Hge, Heq.
  assert (Hpos : 0 < Exact.dot v v).
  { destruct (Rle_lt_or_eq_dec _ _ Hge) as [H | H]; [assumption|].
    exfalso. symmetry in H. apply Heq in H. apply Exists_exists in Hnz.
    destruct Hnz as (x & Hin & Hx). rewrite Forall_forall in H. now apply Hx, H. }
  pose proof (sqrt_lt_R0 _ Hpos) as Hs.
  unfold Exact.is_zero.
  destruct (Req_dec_T (sqrt (Exact.dot v v)) 0) as [E|N]; [Lra.lra|].
  rewrite exact_dot_scale by assumption.
  rewrite sqrt_sqrt by Lra.lra. field. Lra.lra.
Qed.

End ExactArithmetic.

(** C6, amended.  The diagonal entry for vector i is the dot product of the
    normalized vector with itself.  In the float64 arithmetic of the script
    it is 0.0, hence no NaN, when every coordinate of vector i is a zero (of
    either sign).  For a vector that is not all zeros it is 1 in exact
    arithmetic (and 0 for the zero vector); the float64 value carries the
    rounding of the division, the products and the sum. *)
Theorem diagonal :
  (forall vectors i v,
      nth_error vectors i = Some v ->
      Cosine.entry (F64.cosine_similarity vectors) i i
      = Some (F64.dot (F64.normalize v) (F64.normalize v))) /\
  (forall vectors i v,
      nth_error vectors i = Some v ->
      Forall (fun x => x = 0%float \/ x = (-0)%float) v ->
      Cosine.entry (F64.cosine_similarity vectors) i i = Some 0%float) /\
  (forall vectors i v,
      nth_error vectors i = Some v ->
      Forall (fun x => x = 0%R) v ->
      Cosine.entry (Exact.cosine_similarity vectors) i i = Some 0%R) /\
  (forall vectors i v,
      nth_error vectors i = Some v ->
      Exists (fun x => x <> 0%R) v ->
      Cosine.entry (Exact.cosine_similarity vectors) i i = Some 1%R).
Proof.
  split; [|split; [|split]].
  - intros vectors i v H. now apply entry_diagonal.
  - intros vectors i v H Hz. unfold F64.cosine_similarity.
    rewrite (entry_diagonal _ _ _ _ _ _ _ vectors i v H).
    fold (F64.normalize v). fold (F64.dot (F64.normalize v) (F64.normalize v)).
    now rewrite (f64_normalize_zeros v Hz), (f64_dot_zeros v Hz).
  - intros vectors i v H Hz. unfold Exact.cosine_similarity.
    rewrite (entry_diagonal _ _ _ _ _ _ _ vectors i v H).
    f_equal. now apply exact_self_zero.
  - intros vectors i v H Hnz. unfold Exact.cosine_similarity.
    rewrite (entry_diagonal _ _ _ _ _ _ _ vectors i v H).
    f_equal. now apply exact_self_one.
Qed.

Lemma diagonal_witness :
  Cosine.entry (F64.cosine_similarity [[1; 1; 1]; [0; 0; 0]]%float) 1 1
  = Some 0%float.
Proof.
  apply (proj1 (proj2 diagonal) [[1; 1; 1]; [0; 0; 0]]%float 1 [0; 0; 0]%float).
  - reflexivity.
  - repeat constructor; now left.
Defined.

(** C6 fails as stated: in float64 the diagonal entry of a vector that is not
    all zeros need not be 1.0.  For the vector (1, 1, 1), and for the unit
    vector it normalizes to, the entry is larger than 1.0; for (1, 1) it is
    smaller. *)
Lemma diagonal_not_one :
  Cosine.entry (F64.cosine_similarity [[1; 1; 1]]%float) 0 0
    = Some (1 + 0x1p-52)%float /\
  Cosine.entry (F64.cosine_similarity [F64.normalize [1; 1; 1]%float]) 0 0
    = Some (1 + 0x1p-52)%float /\
  Cosine.entry (F64.cosine_similarity [[1; 1]]%float) 0 0
    = Some (1 - 0x1p-52)%float /\
  (1 <? 1 + 0x1p-52)%float = true /\
  (1 - 0x1p-52 <? 1)%float = true /\
  Cosine.entry (F64.cosine_similarity [[1; 1; 1]]%float) 0 0 <> Some 1%float.
Proof.
  repeat split; try (vm_compute; reflexivity).
  intros H.
  apply (f_equal (fun o => match o with
                           | Some d => (1 <? d)%float
                           | None => false
                           end)) in H.
  vm_compute in H. discriminate H.
Qed.

End SimilarityIndex.
